(** * gmg-agent: the chat page, the login gate and the [authorized] callbacks

    A shallow embedding of the TypeScript sources of the web front-end:
    - [src/middleware.ts]                the login gate,
    - [src/unnamed/part_000], [part_006] the two [authorized] callbacks,
    - [src/unnamed/part_001]             the [ChatPage] component
                                         ([handleSubmit], [handleClear],
                                         the form and the message list).

    JavaScript strings are sequences of UTF-16 code units, values coming
    from the network are untyped ([any]), an [async] function is a program
    that suspends at its [await], and the React state of the component is a
    store that the setters update in program order. *)

From Stdlib Require Import List NArith ZArith String Ascii Bool Arith Lia.
Import ListNotations.

Set Implicit Arguments.
Set Warnings "-register-all".

(* ================================================================= *)
(** ** JavaScript strings *)

Module Js.

(** A string is the list of its UTF-16 code units. *)
Definition JsString := list N.

(** A source literal made of ASCII characters. *)
Definition lit (s : string) : JsString :=
  map N_of_ascii (list_ascii_of_string s).

Definition eqb (a b : JsString) : bool :=
  if list_eq_dec N.eq_dec a b then true else false.

(** [!!s] for a string: only the empty string is falsy. *)
Definition truthy (s : JsString) : bool :=
  match s with [] => false | _ :: _ => true end.

(** ECMAScript [LineTerminator]: LF, CR, LS, PS. *)
Definition is_line_terminator (c : N) : bool :=
  ((c =? 10) || (c =? 13) || (c =? 8232) || (c =? 8233))%N.

(** ECMAScript [WhiteSpace]: TAB, VT, FF, SP, NBSP, ZWNBSP and the
    Unicode category Zs. *)
Definition is_white_space (c : N) : bool :=
  ((c =? 9) || (c =? 11) || (c =? 12) || (c =? 32) || (c =? 160)
   || (c =? 5760) || ((8192 <=? c) && (c <=? 8202))
   || (c =? 8239) || (c =? 8287) || (c =? 12288) || (c =? 65279))%N.

(** What [String.prototype.trim] strips. *)
Definition is_trimmed_char (c : N) : bool :=
  is_white_space c || is_line_terminator c.

Fixpoint trimStart (s : JsString) : JsString :=
  match s with
  | [] => []
  | c :: r => if is_trimmed_char c then trimStart r else s
  end.

Definition trimEnd (s : JsString) : JsString :=
  rev (trimStart (rev s)).

(** [s.trim()] *)
Definition trim (s : JsString) : JsString :=
  trimEnd (trimStart s).

(** [s.startsWith(p)] *)
Fixpoint startsWith (s p : JsString) {struct p} : bool :=
  match p, s with
  | [], _ => true
  | _ :: _, [] => false
  | x :: p', c :: s' => (c =? x)%N && startsWith s' p'
  end.

(** [s.split(sep)] for a separator of one code unit. The result is never
    empty: the empty string splits into one empty piece. *)
Fixpoint split (sep : N) (s : JsString) : list JsString :=
  match s with
  | [] => [[]]
  | c :: r =>
      if (c =? sep)%N then [] :: split sep r
      else match split sep r with
           | [] => [[c]]
           | piece :: pieces => (c :: piece) :: pieces
           end
  end.

(** [pieces.join(sep)] *)
Fixpoint join (sep : N) (pieces : list JsString) : JsString :=
  match pieces with
  | [] => []
  | [p] => p
  | p :: ps => p ++ sep :: join sep ps
  end.

(** *** Values of type [any]

    What [JSON.parse] can produce, and [undefined]. The payload of a
    number is never inspected by the code of this repository. *)
Inductive JsValue : Type :=
| JUndefined
| JNull
| JBool (b : bool)
| JNum (n : Z)
| JStr (s : JsString)
| JArr (elems : list JsValue)
| JObj (fields : list (JsString * JsValue)).

(** What a [throw] carries: the [TypeError] of the language itself, or
    the reason a promise was rejected with. *)
Inductive Thrown : Type :=
| TypeError
| Reason (v : JsValue).

(** Own property of a plain object. *)
Fixpoint own_property (fields : list (JsString * JsValue)) (name : JsString)
  : option JsValue :=
  match fields with
  | [] => None
  | (k, v) :: rest => if eqb k name then Some v else own_property rest name
  end.

(** [v.response]: reading a property of [undefined] or [null] throws;
    an object yields its own property or [undefined]; strings, numbers,
    booleans and arrays have no property of that name, own or inherited. *)
Definition get_response (v : JsValue) : Thrown + JsValue :=
  match v with
  | JUndefined | JNull => inl TypeError
  | JObj fields =>
      match own_property fields (lit "response") with
      | Some x => inr x
      | None => inr JUndefined
      end
  | JBool _ | JNum _ | JStr _ | JArr _ => inr JUndefined
  end.

(** A string that does not begin, or does not end, with a code unit
    [trim] strips; the empty string does neither. *)
Definition starts_clean (s : JsString) : bool :=
  match s with [] => true | c :: _ => negb (is_trimmed_char c) end.

Definition ends_clean (s : JsString) : bool := starts_clean (rev s).

End Js.

Import Js.

(* ================================================================= *)
(** ** The login gate and the [authorized] callbacks *)

(** [{ user?: { id: string } } | null], the session NextAuth attaches. *)
Record User : Type := { id : JsString }.
Record Session : Type := { user : option User }.

(** The parts of a [URL] the code reads or builds. *)
Record URL : Type := { origin : JsString; pathname : JsString }.

Definition href (u : URL) : JsString := origin u ++ pathname u.

(** [new URL(path, base)] for an absolute path [path] and a base that is
    the serialised origin of a request: the origin of the base, the path
    replaced. *)
Definition new_URL (path base : JsString) : URL :=
  {| origin := base; pathname := path |}.

(** The request as the [auth] wrapper hands it to the callback. *)
Record NextAuthRequest : Type := { auth : option Session; nextUrl : URL }.

(** [Response.redirect(url)]: status 302 and a [Location] header. *)
Record Response : Type := { status : N; location : URL }.

Definition Response_redirect (u : URL) : Response :=
  {| status := 302; location := u |}.

(** [!!x] for a value that is an object, [null] or [undefined]. *)
Definition to_boolean {A : Type} (x : option A) : bool :=
  match x with Some _ => true | None => false end.

(** [auth?.user] *)
Definition optional_user (a : option Session) : option User :=
  match a with Some s => user s | None => None end.

Module Middleware.

(** [src/middleware.ts], the function passed to [auth]. [None] is the
    [undefined] a function returns when it falls off its end. *)
Definition middleware (req : NextAuthRequest) : option Response :=
  let isLoggedIn := to_boolean (auth req) in
  let isOnChat := startsWith (pathname (nextUrl req)) (lit "/") in
  if isOnChat && negb isLoggedIn then
    let newUrl := new_URL (lit "/login") (origin (nextUrl req)) in
    Some (Response_redirect newUrl)
  else None.

(** One character of a regular expression without operators: a literal,
    or [.], which matches every code unit but a line terminator. *)
Inductive PatChar : Type :=
| PLit (c : N)
| PDot.

Definition pattern_of (s : string) : list PatChar :=
  map (fun c => if (c =? 46)%N then PDot else PLit c) (lit s).

Definition pat_char_matches (p : PatChar) (c : N) : bool :=
  match p with
  | PLit x => (c =? x)%N
  | PDot => negb (is_line_terminator c)
  end.

(** The pattern matches a prefix of the input. *)
Fixpoint looking_at (pat : list PatChar) (s : JsString) : bool :=
  match pat, s with
  | [], _ => true
  | _ :: _, [] => false
  | p :: pat', c :: s' => pat_char_matches p c && looking_at pat' s'
  end.

(** The alternatives of the negative lookahead of [config.matcher]. *)
Definition excluded : list (list PatChar) :=
  map pattern_of
    ["api"; "_next/static"; "_next/image"; "favicon.ico"; "logo.png"]%string.

(** [config.matcher], one source pattern: a slash, then one group made of
    a negative lookahead over the five alternatives above and of dot-star.
    The pattern is anchored at both ends: a slash, then a remainder at
    which none of the alternatives matches and which dot-star can consume
    to the end. The framework wraps the pattern before it compiles it;
    the leading slash, which is all the gate relies on, stays. *)
Definition matcher (path : JsString) : bool :=
  match path with
  | [] => false
  | c :: rest =>
      (c =? 47)%N
      && negb (existsb (fun alt => looking_at alt rest) excluded)
      && forallb (fun x => negb (is_line_terminator x)) rest
  end.

End Middleware.

Module Part000.

(** [src/unnamed/part_000], [authConfig.callbacks.authorized]. *)
Definition authorized (auth : option Session) (nextUrl : URL) : bool :=
  let isLoggedIn := to_boolean (optional_user auth) in
  let isOnChat := startsWith (pathname nextUrl) (lit "/") in
  if isOnChat then isLoggedIn
  else true.

End Part000.

Module Part006.

(** [src/unnamed/part_006], [config.callbacks.authorized]. *)
Definition authorized (auth : option Session) (nextUrl : URL) : bool :=
  let isLoggedIn := to_boolean (optional_user auth) in
  let isOnChat := startsWith (pathname nextUrl) (lit "/") in
  if isOnChat && negb isLoggedIn then false
  else true.

End Part006.

Module Part003.

(** [src/unnamed/part_003], the function passed to [auth]: the variant of
    the gate that looks for the user of the session and redirects to a
    fixed origin. Its request type has no [origin]; the field is not read. *)
Definition middleware (req : NextAuthRequest) : option Response :=
  let isLoggedIn := to_boolean (optional_user (auth req)) in
  let isOnChat := startsWith (pathname (nextUrl req)) (lit "/") in
  if isOnChat && negb isLoggedIn then
    let newUrl := new_URL (lit "/login") (lit "http://localhost:3000") in
    Some (Response_redirect newUrl)
  else None.

End Part003.

Module Part004.

(** [src/unnamed/part_004], the function passed to [auth]: the variant of
    the gate that looks for the user of the session and redirects at the
    origin of the request. *)
Definition middleware (req : NextAuthRequest) : option Response :=
  let isLoggedIn := to_boolean (optional_user (auth req)) in
  let isOnChat := startsWith (pathname (nextUrl req)) (lit "/") in
  if isOnChat && negb isLoggedIn then
    let newUrl := new_URL (lit "/login") (origin (nextUrl req)) in
    Some (Response_redirect newUrl)
  else None.

End Part004.

Module Part001Route.

(** [src/unnamed/part_001], second document, the route handler's
    [callbacks.authorized]. It is [async]: the boolean is what its promise
    is fulfilled with. *)
Definition authorized (auth : option Session) (nextUrl : URL) : bool :=
  let isLoggedIn := to_boolean (optional_user auth) in
  let isOnChat := startsWith (pathname nextUrl) (lit "/") in
  if isOnChat then isLoggedIn
  else true.

End Part001Route.

(* ================================================================= *)
(** ** The chat page, [src/unnamed/part_001] *)

Module Chat.

(** [{ role: string; content: string }] is the declared type of a message;
    [content] receives [response.data.response], of type [any]. *)
Record Message : Type := { role : JsString; content : JsValue }.

(** The four [useState] cells of [ChatPage]. *)
Record ChatState : Type := {
  messages : list Message;
  input : JsString;
  isLoading : bool;
  error : option JsString
}.

Definition initial : ChatState :=
  {| messages := []; input := lit ""; isLoading := false; error := None |}.

(** [axios.post(url, body)] *)
Record HttpRequest : Type := { url : JsString; body : JsValue }.

(** What the promise of [axios.post] is fulfilled with. *)
Record AxiosResponse : Type := { data : JsValue }.

Inductive Settled : Type :=
| Fulfilled (response : AxiosResponse)
| Rejected (reason : JsValue).

(** The observable actions of the event handlers. [SetMessagesAppend m]
    is the updater [(prev) => [...prev, m]], [SetMessagesTo v] the call
    [setMessages(v)]. *)
Inductive Effect : Type :=
| PreventDefault
| SetInput (v : JsString)
| SetIsLoading (v : bool)
| SetError (v : option JsString)
| SetMessagesTo (v : list Message)
| SetMessagesAppend (m : Message)
| ConsoleError (label : JsString) (err : Thrown)
| HttpPost (req : HttpRequest).

Definition apply_effect (eff : Effect) (s : ChatState) : ChatState :=
  match eff with
  | SetInput v =>
      {| messages := messages s; input := v;
         isLoading := isLoading s; error := error s |}
  | SetIsLoading v =>
      {| messages := messages s; input := input s;
         isLoading := v; error := error s |}
  | SetError v =>
      {| messages := messages s; input := input s;
         isLoading := isLoading s; error := v |}
  | SetMessagesTo v =>
      {| messages := v; input := input s;
         isLoading := isLoading s; error := error s |}
  | SetMessagesAppend m =>
      {| messages := messages s ++ [m]; input := input s;
         isLoading := isLoading s; error := error s |}
  | PreventDefault | ConsoleError _ _ | HttpPost _ => s
  end.

(** *** Handlers as programs

    A handler is a finite tree of effects that ends normally, ends by a
    [throw], or calls [axios.post] and suspends at the [await] with the
    rest of the [async] function as its continuation. *)
Inductive Prog (A : Type) : Type :=
| Ret (a : A)
| Throw (e : Thrown)
| Do (eff : Effect) (k : Prog A)
| AwaitPost (req : HttpRequest) (k : Settled -> Prog A).

Arguments Ret {A} a.
Arguments Throw {A} e.
Arguments Do {A} eff k.
Arguments AwaitPost {A} req k.

Fixpoint bind {A B : Type} (p : Prog A) (f : A -> Prog B) : Prog B :=
  match p with
  | Ret a => f a
  | Throw e => Throw e
  | Do eff k => Do eff (bind k f)
  | AwaitPost req k => AwaitPost req (fun r => bind (k r) f)
  end.

Declare Scope prog_scope.
Delimit Scope prog_scope with prog.
Notation "x <- p ;; q" := (bind p (fun x => q))
  (at level 61, p at next level, right associativity) : prog_scope.
Notation "p ;; q" := (bind p (fun _ => q))
  (at level 61, right associativity) : prog_scope.
Open Scope prog_scope.

Definition perform (eff : Effect) : Prog unit := Do eff (Ret tt).

(** [await axios.post(url, body)]: the value of a fulfilled promise, the
    reason of a rejected one thrown at the [await]. *)
Definition await_post (req : HttpRequest) : Prog AxiosResponse :=
  AwaitPost req (fun r =>
    match r with
    | Fulfilled response => Ret response
    | Rejected reason => Throw (Reason reason)
    end).

(** An expression that may throw. *)
Definition eval {A : Type} (r : Thrown + A) : Prog A :=
  match r with inl e => Throw e | inr a => Ret a end.

(** [try { p } catch (err) { handler err }] *)
Fixpoint try_catch {A : Type} (p : Prog A) (handler : Thrown -> Prog A)
  : Prog A :=
  match p with
  | Ret a => Ret a
  | Throw e => handler e
  | Do eff k => Do eff (try_catch k handler)
  | AwaitPost req k => AwaitPost req (fun r => try_catch (k r) handler)
  end.

(** [try { p } finally { cleanup }] *)
Fixpoint try_finally {A : Type} (p : Prog A) (cleanup : Prog unit) : Prog A :=
  match p with
  | Ret a => cleanup ;; Ret a
  | Throw e => cleanup ;; Throw e
  | Do eff k => Do eff (try_finally k cleanup)
  | AwaitPost req k => AwaitPost req (fun r => try_finally (k r) cleanup)
  end.

(** How a handler leaves the event loop: completed (normally or by an
    uncaught [throw]), or suspended on a request. *)
Inductive Status (A : Type) : Type :=
| Completed (r : Thrown + A)
| Suspended (req : HttpRequest) (k : Settled -> Prog A).

Arguments Completed {A} r.
Arguments Suspended {A} req k.

(** Runs a handler on the state up to its end or its [await]; the effects
    performed, in order, are the third component. *)
Fixpoint run {A : Type} (p : Prog A) (s : ChatState)
  : Status A * ChatState * list Effect :=
  match p with
  | Ret a => (Completed (inr a), s, [])
  | Throw e => (Completed (inl e), s, [])
  | Do eff k =>
      let '(st, s', tr) := run k (apply_effect eff s) in (st, s', eff :: tr)
  | AwaitPost req k => (Suspended req k, s, [HttpPost req])
  end.

(** Runs a handler to its end when nothing else happens while it waits:
    every [await] is resumed at once with [result]. *)
Fixpoint run_with {A : Type} (result : Settled) (p : Prog A) (s : ChatState)
  : (Thrown + A) * ChatState * list Effect :=
  match p with
  | Ret a => (inr a, s, [])
  | Throw e => (inl e, s, [])
  | Do eff k =>
      let '(r, s', tr) := run_with result k (apply_effect eff s) in
      (r, s', eff :: tr)
  | AwaitPost req k =>
      let '(r, s', tr) := run_with result (k result) s in
      (r, s', HttpPost req :: tr)
  end.

Definition user_message (text : JsString) : Message :=
  {| role := lit "user"; content := JStr text |}.

Definition assistant_message (c : JsValue) : Message :=
  {| role := lit "assistant"; content := c |}.

Definition connection_error : JsString :=
  lit "Failed to get response. Please check your connection.".

Definition trouble_text : JsString :=
  lit "I'm having trouble connecting to the AI service. Please try again later.".

Section ChatPage.

(** [process.env.NEXT_PUBLIC_API_URL], [None] when it is not set. *)
Variable NEXT_PUBLIC_API_URL : option JsString.

(** [process.env.NEXT_PUBLIC_API_URL || "http://localhost:8000/api"] *)
Definition API_URL : JsString :=
  match NEXT_PUBLIC_API_URL with
  | Some v => if truthy v then v else lit "http://localhost:8000/api"
  | None => lit "http://localhost:8000/api"
  end.

(** The body of the request, [{ message: userMessage, model: "mistral" }]. *)
Definition chat_request (userMessage : JsString) : HttpRequest :=
  {| url := API_URL ++ lit "/chat";
     body := JObj [(lit "message", JStr userMessage);
                   (lit "model", JStr (lit "mistral"))] |}.

(** [handleSubmit]; [input] is the state cell the closure captured. *)
Definition handleSubmit (input : JsString) : Prog unit :=
  perform PreventDefault ;;
  if negb (truthy (trim input)) then Ret tt
  else
    let userMessage := trim input in
    perform (SetInput (lit "")) ;;
    perform (SetIsLoading true) ;;
    perform (SetError None) ;;
    perform (SetMessagesAppend (user_message userMessage)) ;;
    try_finally
      (try_catch
         (response <- await_post (chat_request userMessage) ;;
          aiResponse <- eval (get_response (data response)) ;;
          perform (SetMessagesAppend (assistant_message aiResponse)))
         (fun err =>
            perform (ConsoleError (lit "Error:") err) ;;
            perform (SetError (Some connection_error)) ;;
            perform (SetMessagesAppend (assistant_message (JStr trouble_text)))))
      (perform (SetIsLoading false)).

(** [handleClear] *)
Definition handleClear : Prog unit :=
  perform (SetMessagesTo []) ;;
  perform (SetError None).

(** *** The form

    [disabled={isLoading}] on the text input and
    [disabled={!input.trim() || isLoading}] on the Send button. *)
Definition input_disabled (s : ChatState) : bool := isLoading s.

Definition send_disabled (s : ChatState) : bool :=
  negb (truthy (trim (input s))) || isLoading s.

(** One bubble of the list: [justify-end] for the user, the content split
    into paragraphs at the line feeds. [None]: [msg.content.split] is not
    callable or [msg.content] is [undefined] or [null], the render throws. *)
Record Bubble : Type := { justify_end : bool; paragraphs : list JsString }.

Definition render_message (msg : Message) : option Bubble :=
  match content msg with
  | JStr text =>
      Some {| justify_end := Js.eqb (role msg) (lit "user");
              paragraphs := Js.split 10 text |}
  | _ => None
  end.

(** *** The page as a transition system

    The page reacts to one event at a time and is rendered again before
    the next one. The requests in flight wait with the continuation of the
    [handleSubmit] that issued them. An event on a disabled control is
    not dispatched. A render that throws takes the page down; the model
    lets the page go on, which only adds executions. *)
Record Page : Type := {
  state : ChatState;
  in_flight : list (HttpRequest * (Settled -> Prog unit))
}.

Definition page_initial : Page := {| state := initial; in_flight := [] |}.

Inductive Event : Type :=
| Change (value : JsString)            (* typing: [setInput(e.target.value)] *)
| Submit                               (* the form's [onSubmit] *)
| ClearChat                            (* [onClick] of "Clear Chat" *)
| Settle (i : nat) (result : Settled). (* the [i]-th request in flight settles *)

(** Runs a handler or a continuation on the page. *)
Definition dispatch (p : Prog unit) (pg : Page)
  (others : list (HttpRequest * (Settled -> Prog unit))) : Page :=
  match run p (state pg) with
  | (Completed _, s', _) => {| state := s'; in_flight := others |}
  | (Suspended req k, s', _) =>
      {| state := s'; in_flight := others ++ [(req, k)] |}
  end.

Definition step (pg : Page) (ev : Event) : option Page :=
  match ev with
  | Change value =>
      if input_disabled (state pg) then None
      else Some (dispatch (perform (SetInput value)) pg (in_flight pg))
  | Submit =>
      if send_disabled (state pg) then None
      else Some (dispatch (handleSubmit (input (state pg))) pg (in_flight pg))
  | ClearChat => Some (dispatch handleClear pg (in_flight pg))
  | Settle i result =>
      match nth_error (in_flight pg) i with
      | None => None
      | Some (_, k) =>
          Some (dispatch (k result) pg
                  (firstn i (in_flight pg) ++ skipn (S i) (in_flight pg)))
      end
  end.

Fixpoint steps (pg : Page) (evs : list Event) : option Page :=
  match evs with
  | [] => Some pg
  | ev :: rest =>
      match step pg ev with
      | Some pg' => steps pg' rest
      | None => None
      end
  end.

(** No "Clear Chat" is clicked while a request is in flight. *)
Fixpoint clears_when_idle (pg : Page) (evs : list Event) : bool :=
  match evs with
  | [] => true
  | ev :: rest =>
      match ev with
      | ClearChat => negb (isLoading (state pg))
      | _ => true
      end
      && match step pg ev with
         | Some pg' => clears_when_idle pg' rest
         | None => true
         end
  end.

End ChatPage.

(** The requests a run has issued, in order. *)
Definition requests (tr : list Effect) : list HttpRequest :=
  flat_map (fun eff => match eff with HttpPost req => [req] | _ => [] end) tr.

(** *** The shape of the message list *)

(** Roles alternate, starting with "user" when [expect_user] is set. *)
Fixpoint alternates_from (expect_user : bool) (l : list Message) : bool :=
  match l with
  | [] => true
  | m :: rest =>
      Js.eqb (role m) (if expect_user then lit "user" else lit "assistant")
      && alternates_from (negb expect_user) rest
  end.

Definition alternates (l : list Message) : bool := alternates_from true l.

Definition count_role (r : JsString) (l : list Message) : nat :=
  List.length (filter (fun m => Js.eqb (role m) r) l).

(** *** Invariants of the page *)

(** A continuation that, whatever the promise settles with and whatever
    the state is by then, ends without a further [await], appends one
    assistant message and sets [isLoading] to [false]. *)
Definition resumes (k : Settled -> Prog unit) : Prop :=
  forall r s2, exists a s3 tr,
    run (k r) s2 = (Completed (inr tt), s3, tr)
    /\ messages s3 = messages s2 ++ [a]
    /\ role a = lit "assistant"
    /\ input s3 = input s2
    /\ isLoading s3 = false.

(** One request is in flight exactly while [isLoading] is set, and what
    waits for it is a continuation of [handleSubmit]. *)
Definition page_inv (pg : Page) : Prop :=
  List.length (in_flight pg) = (if isLoading (state pg) then 1 else 0)
  /\ Forall (fun rk => resumes (snd rk)) (in_flight pg).

(** The roles alternate from "user"; the list is of odd length exactly
    while a request is in flight. *)
Definition shape_inv (pg : Page) : Prop :=
  alternates (messages (state pg)) = true
  /\ Nat.even (List.length (messages (state pg))) = negb (isLoading (state pg)).

(** *** The rendered page *)

(** [messages.map(...)]: one bubble per message; the render throws when
    one of them throws. *)
Fixpoint render_messages (l : list Message) : option (list Bubble) :=
  match l with
  | [] => Some []
  | msg :: rest =>
      match render_message msg, render_messages rest with
      | Some b, Some bs => Some (b :: bs)
      | _, _ => None
      end
  end.

(** What the component returns, as far as it depends on the state: the
    placeholder under [messages.length === 0], the bubbles, the bouncing
    dots under [isLoading], the banner under [error] (the empty string is
    falsy as [null] is), and the two controls of the form. *)
Record View : Type := {
  placeholder : bool;
  bubbles : list Bubble;
  loading_dots : bool;
  error_banner : option JsString;
  input_value : JsString;
  input_is_disabled : bool;
  send_is_disabled : bool
}.

Definition render (s : ChatState) : option View :=
  match render_messages (messages s) with
  | None => None
  | Some bs =>
      Some {| placeholder := Nat.eqb (List.length (messages s)) 0;
              bubbles := bs;
              loading_dots := isLoading s;
              error_banner :=
                match error s with
                | Some e => if truthy e then Some e else None
                | None => None
                end;
              input_value := input s;
              input_is_disabled := input_disabled s;
              send_is_disabled := send_disabled s |}
  end.

(** *** Invariants of the reachable pages *)

(** A continuation as [resumes] has it, with what it does to each cell:
    it issues no request, keeps the input, and either appends an
    assistant message and keeps the error, or appends the trouble message
    and sets the error. *)
Definition resumes_fully (k : Settled -> Prog unit) : Prop :=
  forall r s2, exists s3 tr,
    run (k r) s2 = (Completed (inr tt), s3, tr)
    /\ requests tr = []
    /\ input s3 = input s2
    /\ isLoading s3 = false
    /\ ((exists v, messages s3 = messages s2 ++ [assistant_message v]
                   /\ error s3 = error s2)
        \/ (messages s3 = messages s2 ++ [assistant_message (JStr trouble_text)]
            /\ error s3 = Some connection_error)).

(** A message as the handlers build it: an assistant message, or a user
    message whose content is a string that is not empty and that [trim]
    leaves alone. *)
Definition well_formed (m : Message) : Prop :=
  role m = lit "assistant"
  \/ exists text, m = user_message text /\ text <> lit "" /\ trim text = text.

(** The role the next message is due to have, in a list that alternates
    from "user" ([b] set) or from "assistant": [true] for "user". *)
Definition next_is_user (b : bool) (l : list Message) : bool :=
  if Nat.even (List.length l) then b else negb b.

Definition page_ok (pg : Page) : Prop :=
  let s := state pg in
  List.length (in_flight pg) = (if isLoading s then 1 else 0)
  /\ Forall (fun rk => resumes_fully (snd rk)) (in_flight pg)
  /\ (isLoading s = true -> input s = lit "" /\ error s = None)
  /\ (forall e, error s = Some e ->
        e = connection_error
        /\ exists pre, messages s = pre ++ [assistant_message (JStr trouble_text)])
  /\ Forall well_formed (messages s)
  /\ (exists b, alternates_from b (messages s) = true
                /\ next_is_user b (messages s) = negb (isLoading s)).

End Chat.

Import Chat.

(* ================================================================= *)
(** ** Properties of the login gate and of the callbacks *)

#[local] Arguments lit : simpl never.

Lemma js_eqb_refl : forall a : JsString, Js.eqb a a = true.
Proof.
  intros a. unfold Js.eqb. destruct (list_eq_dec N.eq_dec a a); congruence.
Qed.

Lemma js_eqb_eq : forall a b : JsString, Js.eqb a b = true <-> a = b.
Proof.
  intros a b. unfold Js.eqb.
  destruct (list_eq_dec N.eq_dec a b); split; congruence.
Qed.

Lemma truthy_nonempty : forall s : JsString, s <> lit "" -> truthy s = true.
Proof.
  intros [| c r] H; [elim H; reflexivity | reflexivity].
Qed.

(** Every path the matcher accepts starts with a slash. *)
Lemma matcher_startsWith_slash :
  forall path, Middleware.matcher path = true -> startsWith path (lit "/") = true.
Proof.
  intros [| c rest] H; simpl in H; [discriminate |].
  apply andb_prop in H as [H _]. apply andb_prop in H as [H _].
  change (lit "/") with [47%N]. simpl. now rewrite H.
Qed.

(** The answer of the gate on a path that starts with a slash depends on
    the session alone. *)
Lemma middleware_on_rooted_path :
  forall req : NextAuthRequest,
    startsWith (pathname (nextUrl req)) (lit "/") = true ->
    Middleware.middleware req =
      match auth req with
      | Some _ => None
      | None =>
          Some (Response_redirect
                  {| origin := origin (nextUrl req); pathname := lit "/login" |})
      end.
Proof.
  intros req H. unfold Middleware.middleware. rewrite H.
  destruct (auth req); reflexivity.
Qed.

(** C1. On every request the matcher accepts: without a session the gate
    answers with a redirect to [/login] at the origin of the request; with
    a session it returns [undefined]. *)
Theorem C1_login_gate :
  forall req : NextAuthRequest,
    Middleware.matcher (pathname (nextUrl req)) = true ->
    (auth req = None ->
       Middleware.middleware req =
         Some (Response_redirect
                 {| origin := origin (nextUrl req); pathname := lit "/login" |}))
    /\ (forall session, auth req = Some session ->
          Middleware.middleware req = None).
Proof.
  intros req Hm. apply matcher_startsWith_slash in Hm.
  rewrite (middleware_on_rooted_path req Hm). split.
  - intros ->. reflexivity.
  - intros session ->. reflexivity.
Qed.

Lemma C1_login_gate_witness :
  let anonymous :=
    {| auth := None;
       nextUrl := {| origin := lit "https://gmg.example"; pathname := lit "/chat" |} |} in
  let member :=
    {| auth := Some {| user := Some {| id := lit "42" |} |};
       nextUrl := {| origin := lit "https://gmg.example"; pathname := lit "/chat" |} |} in
  href (location (match Middleware.middleware anonymous with
                  | Some r => r
                  | None => Response_redirect (nextUrl anonymous)
                  end)) = lit "https://gmg.example/login"
  /\ Middleware.middleware member = None.
Proof.
  intros anonymous member. split.
  - rewrite (proj1 (C1_login_gate anonymous eq_refl) eq_refl). reflexivity.
  - exact (proj2 (C1_login_gate member eq_refl) _ eq_refl).
Defined.

(** C8. The [authorized] callback of part_000 and the one of part_006
    return the same boolean on every pair of a session and a URL. *)
Theorem C8_authorized_callbacks_agree :
  forall (auth : option Session) (nextUrl : URL),
    Part000.authorized auth nextUrl = Part006.authorized auth nextUrl.
Proof.
  intros a u. unfold Part000.authorized, Part006.authorized.
  destruct (startsWith (pathname u) (lit "/"));
    destruct (to_boolean (optional_user a)); reflexivity.
Qed.

(* ================================================================= *)
(** ** Properties of [handleSubmit] and [handleClear] *)

(** What one call of [handleSubmit] with a non-blank input does up to its
    [await], and what its continuation does whenever the promise settles,
    on whatever state the page is in by then. *)
Lemma handleSubmit_run :
  forall env i s,
    truthy (trim i) = true ->
    exists k,
      run (handleSubmit env i) s =
        (Suspended (chat_request env (trim i)) k,
         {| messages := messages s ++ [user_message (trim i)];
            input := lit ""; isLoading := true; error := None |},
         [PreventDefault; SetInput (lit ""); SetIsLoading true; SetError None;
          SetMessagesAppend (user_message (trim i));
          HttpPost (chat_request env (trim i))])
      /\ (forall response v s2,
            get_response (data response) = inr v ->
            run (k (Fulfilled response)) s2 =
              (Completed (inr tt),
               {| messages := messages s2 ++ [assistant_message v];
                  input := input s2; isLoading := false; error := error s2 |},
               [SetMessagesAppend (assistant_message v); SetIsLoading false]))
      /\ (forall r e s2,
            match r with
            | Fulfilled response => get_response (data response) = inl e
            | Rejected reason => e = Reason reason
            end ->
            run (k r) s2 =
              (Completed (inr tt),
               {| messages := messages s2 ++ [assistant_message (JStr trouble_text)];
                  input := input s2; isLoading := false;
                  error := Some connection_error |},
               [ConsoleError (lit "Error:") e; SetError (Some connection_error);
                SetMessagesAppend (assistant_message (JStr trouble_text));
                SetIsLoading false])).
Proof.
  intros env i s Hi. unfold handleSubmit. cbn. rewrite Hi. cbn.
  eexists. split; [reflexivity |]. split.
  - intros response v s2 Hv. cbn. rewrite Hv. reflexivity.
  - intros [response | reason] e s2 He; cbn.
    + rewrite He. reflexivity.
    + subst e. reflexivity.
Qed.

(** [run_with] is [run] followed, at an [await], by the continuation. *)
Lemma run_with_run :
  forall (A : Type) (result : Settled) (p : Prog A) (s : ChatState),
    run_with result p s =
      match run p s with
      | (Completed r, s', tr) => (r, s', tr)
      | (Suspended _ k, s', tr) =>
          let '(r, s'', tr') := run_with result (k result) s' in
          (r, s'', tr ++ tr')
      end.
Proof.
  intros A result p. induction p as [a | e | eff k IH | req k _]; intros s; cbn.
  - reflexivity.
  - reflexivity.
  - rewrite IH. destruct (run k (apply_effect eff s)) as [[[r | req' k'] s'] tr].
    + reflexivity.
    + destruct (run_with result (k' result) s') as [[r s''] tr']. reflexivity.
  - destruct (run_with result (k result) s) as [[r s''] tr']. reflexivity.
Qed.

Lemma split_nonempty : forall sep s, Js.split sep s <> [].
Proof.
  intros sep [| c r]; cbn; [discriminate |].
  destruct (c =? sep)%N; [discriminate |].
  destruct (Js.split sep r); discriminate.
Qed.

(** Joining the paragraphs of a text gives the text back. *)
Lemma join_split : forall sep s, Js.join sep (Js.split sep s) = s.
Proof.
  intros sep s. induction s as [| c r IH]; [reflexivity |].
  cbn [Js.split]. destruct (N.eqb_spec c sep) as [-> | Hc].
  - pose proof (split_nonempty sep r) as Hne.
    destruct (Js.split sep r) as [| p ps]; [congruence |].
    cbn [Js.join app]. cbn [Js.join] in IH. now rewrite IH.
  - pose proof (split_nonempty sep r) as Hne.
    destruct (Js.split sep r) as [| p ps]; [congruence |].
    destruct ps as [| q qs]; cbn [Js.join app] in *; now rewrite <- IH.
Qed.

(** C9. With an input that trims to the empty string [handleSubmit]
    returns at once: no request is issued, and [messages], [input],
    [error] and [isLoading] stay as they were. *)
Theorem C9_blank_input_is_ignored :
  forall env s,
    trim (input s) = lit "" ->
    exists tr,
      run (handleSubmit env (input s)) s = (Completed (inr tt), s, tr)
      /\ requests tr = [].
Proof.
  intros env s H. exists [PreventDefault]. split; [| reflexivity].
  unfold handleSubmit. cbn. rewrite H. reflexivity.
Qed.

Lemma C9_blank_input_is_ignored_witness :
  let s := {| messages := [user_message (lit "hi"); assistant_message (JStr (lit "hello"))];
              input := lit "   "; isLoading := false; error := Some connection_error |} in
  exists tr,
    run (handleSubmit None (input s)) s = (Completed (inr tt), s, tr)
    /\ requests tr = [].
Proof.
  intros s. apply (C9_blank_input_is_ignored None s). reflexivity.
Defined.

(** C5. With an input that does not trim to the empty string,
    [handleSubmit] appends the trimmed input as a user message, empties
    the input and sets the error to [null], all before it issues the
    request: the request is the last effect before the [await], and the
    state at the [await] holds the three updates. *)
Theorem C5_state_updated_before_request :
  forall env s,
    trim (input s) <> lit "" ->
    let typed := {| role := lit "user"; content := JStr (trim (input s)) |} in
    let req :=
      {| url := API_URL env ++ lit "/chat";
         body := JObj [(lit "message", JStr (trim (input s)));
                       (lit "model", JStr (lit "mistral"))] |} in
    exists k s1,
      run (handleSubmit env (input s)) s =
        (Suspended req k, s1,
         [PreventDefault; SetInput (lit ""); SetIsLoading true; SetError None;
          SetMessagesAppend typed; HttpPost req])
      /\ messages s1 = messages s ++ [typed]
      /\ input s1 = lit ""
      /\ error s1 = None.
Proof.
  intros env s H typed req. apply truthy_nonempty in H.
  destruct (handleSubmit_run env (input s) s H) as (k & Hrun & _).
  eexists. eexists. split; [exact Hrun |]. repeat split.
Qed.

Lemma C5_state_updated_before_request_witness :
  let s := {| messages := []; input := lit "  Find member Anand ";
              isLoading := false; error := Some (lit "stale") |} in
  let typed := {| role := lit "user"; content := JStr (lit "Find member Anand") |} in
  let req :=
    {| url := lit "http://localhost:8000/api/chat";
       body := JObj [(lit "message", JStr (lit "Find member Anand"));
                     (lit "model", JStr (lit "mistral"))] |} in
  exists k s1,
    run (handleSubmit None (input s)) s =
      (Suspended req k, s1,
       [PreventDefault; SetInput (lit ""); SetIsLoading true; SetError None;
        SetMessagesAppend typed; HttpPost req])
    /\ messages s1 = [typed]
    /\ input s1 = lit ""
    /\ error s1 = None.
Proof.
  intros s typed req.
  apply (C5_state_updated_before_request None s). discriminate.
Defined.

(** C2. When the request of a submit is rejected, [handleSubmit] catches
    the error: it sets the error text, appends one assistant message with
    the trouble text, and sets [isLoading] back to [false]. It does so on
    whatever state the page is in when the promise is rejected, and it
    removes nothing from the list; when nothing else happened meanwhile
    the list ends with the user message and the trouble message. *)
Theorem C2_failed_request :
  forall env s reason,
    trim (input s) <> lit "" ->
    let failed := lit "Failed to get response. Please check your connection." in
    let trouble :=
      {| role := lit "assistant";
         content :=
           JStr (lit "I'm having trouble connecting to the AI service. Please try again later.") |} in
    let typed := {| role := lit "user"; content := JStr (trim (input s)) |} in
    let req :=
      {| url := API_URL env ++ lit "/chat";
         body := JObj [(lit "message", JStr (trim (input s)));
                       (lit "model", JStr (lit "mistral"))] |} in
    (exists k s1 tr1,
        run (handleSubmit env (input s)) s = (Suspended req k, s1, tr1)
        /\ forall s2, exists s3,
             run (k (Rejected reason)) s2 =
               (Completed (inr tt), s3,
                [ConsoleError (lit "Error:") (Reason reason);
                 SetError (Some failed);
                 SetMessagesAppend trouble;
                 SetIsLoading false])
             /\ error s3 = Some failed
             /\ messages s3 = messages s2 ++ [trouble]
             /\ isLoading s3 = false)
    /\ (exists s' tr,
          run_with (Rejected reason) (handleSubmit env (input s)) s = (inr tt, s', tr)
          /\ error s' = Some failed
          /\ messages s' = messages s ++ [typed; trouble]
          /\ isLoading s' = false).
Proof.
  intros env s reason H failed trouble typed req. apply truthy_nonempty in H.
  destruct (handleSubmit_run env (input s) s H) as (k & Hrun & _ & Hfail).
  split.
  - exists k. eexists. eexists. split; [exact Hrun |].
    intros s2. eexists. split.
    + apply (Hfail (Rejected reason)). reflexivity.
    + repeat split.
  - rewrite run_with_run, Hrun, run_with_run.
    rewrite (Hfail (Rejected reason) _ _ eq_refl).
    eexists. eexists. split; [reflexivity |]. cbn [error messages isLoading].
    rewrite <- app_assoc. repeat split.
Qed.

Lemma C2_failed_request_witness :
  let s := {| messages := []; input := lit "How many members?";
              isLoading := false; error := None |} in
  exists s' tr,
    run_with (Rejected JUndefined) (handleSubmit None (input s)) s = (inr tt, s', tr)
    /\ error s' = Some (lit "Failed to get response. Please check your connection.")
    /\ messages s' =
         [{| role := lit "user"; content := JStr (lit "How many members?") |};
          {| role := lit "assistant";
             content :=
               JStr (lit "I'm having trouble connecting to the AI service. Please try again later.") |}]
    /\ isLoading s' = false.
Proof.
  intros s. apply (C2_failed_request None s JUndefined). discriminate.
Defined.

(** C3. Every call of [handleSubmit] with an input that does not trim to
    the empty string issues one request, a POST to the chat URL with the
    trimmed input as [message] and "mistral" as [model], and appends two
    messages, a user message and then an assistant message, whatever the
    promise settles with. The first is appended before the [await]; the
    second when the promise settles, on whatever state the page is in by
    then, and no further request is issued. *)
Theorem C3_one_request_two_messages :
  forall env s result,
    trim (input s) <> lit "" ->
    let req :=
      {| url := API_URL env ++ lit "/chat";
         body := JObj [(lit "message", JStr (trim (input s)));
                       (lit "model", JStr (lit "mistral"))] |} in
    (exists s' tr u a,
        run_with result (handleSubmit env (input s)) s = (inr tt, s', tr)
        /\ requests tr = [req]
        /\ messages s' = messages s ++ [u; a]
        /\ role u = lit "user"
        /\ role a = lit "assistant")
    /\ (exists k s1 tr1 u,
          run (handleSubmit env (input s)) s = (Suspended req k, s1, tr1)
          /\ requests tr1 = [req]
          /\ messages s1 = messages s ++ [u]
          /\ role u = lit "user"
          /\ forall s2, exists s3 tr2 a,
               run (k result) s2 = (Completed (inr tt), s3, tr2)
               /\ requests tr2 = []
               /\ messages s3 = messages s2 ++ [a]
               /\ role a = lit "assistant").
Proof.
  intros env s result H req. apply truthy_nonempty in H.
  destruct (handleSubmit_run env (input s) s H) as (k & Hrun & Hok & Hfail).
  assert (Hcases :
            (exists v response, result = Fulfilled response
                                /\ get_response (data response) = inr v)
            \/ (exists e, match result with
                          | Fulfilled response => get_response (data response) = inl e
                          | Rejected reason => e = Reason reason
                          end)).
  { destruct result as [response | reason].
    - destruct (get_response (data response)) as [e | v] eqn:E.
      + right. now exists e.
      + left. now exists v, response.
    - right. now eexists. }
  split.
  - rewrite run_with_run, Hrun, run_with_run.
    destruct Hcases as [(v & response & -> & Hv) | (e & He)].
    + rewrite (Hok _ _ _ Hv).
      eexists. eexists. exists (user_message (trim (input s))), (assistant_message v).
      split; [reflexivity |]. cbn [messages]. rewrite <- app_assoc.
      repeat split.
    + rewrite (Hfail _ _ _ He).
      eexists. eexists. exists (user_message (trim (input s))),
        (assistant_message (JStr trouble_text)).
      split; [reflexivity |]. cbn [messages]. rewrite <- app_assoc.
      repeat split.
  - exists k. eexists. eexists. exists (user_message (trim (input s))).
    split; [exact Hrun |]. repeat split.
    intros s2. destruct Hcases as [(v & response & -> & Hv) | (e & He)].
    + rewrite (Hok _ _ s2 Hv). eexists. eexists. exists (assistant_message v).
      repeat split.
    + rewrite (Hfail _ _ s2 He). eexists. eexists.
      exists (assistant_message (JStr trouble_text)). repeat split.
Qed.

Lemma C3_one_request_two_messages_witness :
  let s := {| messages := []; input := lit " Show me jobs";
              isLoading := false; error := None |} in
  exists s' tr u a,
    run_with (Fulfilled {| data := JNull |}) (handleSubmit None (input s)) s
      = (inr tt, s', tr)
    /\ requests tr =
         [{| url := lit "http://localhost:8000/api/chat";
             body := JObj [(lit "message", JStr (lit "Show me jobs"));
                           (lit "model", JStr (lit "mistral"))] |}]
    /\ messages s' = messages s ++ [u; a]
    /\ role u = lit "user"
    /\ role a = lit "assistant".
Proof.
  intros s.
  refine (proj1 (@C3_one_request_two_messages None s
                   (Fulfilled {| data := JNull |}) _)).
  discriminate.
Defined.

(** Reading [response] throws exactly on [null] and [undefined]. *)
Lemma get_response_throws :
  forall d e,
    get_response d = inl e -> (d = JNull \/ d = JUndefined) /\ e = TypeError.
Proof.
  intros d e H. destruct d; cbn in H; try discriminate.
  - injection H as <-. split; [now right | reflexivity].
  - injection H as <-. split; [now left | reflexivity].
  - destruct (own_property fields (lit "response")); discriminate.
Qed.

(** C4, as amended. When the request of a submit is fulfilled with a body
    that is neither [null] nor [undefined], reading its [response] field
    yields a value [v] ([undefined] when the body has no such field), the
    assistant message appended has content [v], and it comes after the
    user message that carries the trimmed input; it does so on whatever
    state the page is in when the promise is fulfilled, and when [v] is a
    string the bubble rendered for it shows the paragraphs of [v]. When
    the body is [null] or [undefined], reading [response] throws inside
    the [try] and the failure path of [handleSubmit] runs instead: the
    error text is set and the assistant message carries the trouble
    text. *)
Theorem C4_fulfilled_request :
  forall env s response,
    trim (input s) <> lit "" ->
    let typed := {| role := lit "user"; content := JStr (trim (input s)) |} in
    let failed := lit "Failed to get response. Please check your connection." in
    let trouble :=
      {| role := lit "assistant";
         content :=
           JStr (lit "I'm having trouble connecting to the AI service. Please try again later.") |} in
    let req :=
      {| url := API_URL env ++ lit "/chat";
         body := JObj [(lit "message", JStr (trim (input s)));
                       (lit "model", JStr (lit "mistral"))] |} in
    exists k s1 tr1,
      run (handleSubmit env (input s)) s = (Suspended req k, s1, tr1)
      /\ (data response <> JNull ->
          data response <> JUndefined ->
          exists v,
            get_response (data response) = inr v
            /\ (exists s' tr,
                  run_with (Fulfilled response) (handleSubmit env (input s)) s
                    = (inr tt, s', tr)
                  /\ messages s' =
                       messages s ++ [typed; {| role := lit "assistant"; content := v |}]
                  /\ error s' = None)
            /\ (forall s2, exists s3 tr2,
                  run (k (Fulfilled response)) s2 = (Completed (inr tt), s3, tr2)
                  /\ messages s3 =
                       messages s2 ++ [{| role := lit "assistant"; content := v |}]
                  /\ error s3 = error s2)
            /\ (forall text, v = JStr text ->
                  exists bubble,
                    render_message {| role := lit "assistant"; content := v |}
                      = Some bubble
                    /\ justify_end bubble = false
                    /\ Js.join 10 (paragraphs bubble) = text))
      /\ (data response = JNull \/ data response = JUndefined ->
          (exists s' tr,
              run_with (Fulfilled response) (handleSubmit env (input s)) s
                = (inr tt, s', tr)
              /\ messages s' = messages s ++ [typed; trouble]
              /\ error s' = Some failed
              /\ isLoading s' = false)
          /\ (forall s2, exists s3 tr2,
                run (k (Fulfilled response)) s2 = (Completed (inr tt), s3, tr2)
                /\ messages s3 = messages s2 ++ [trouble]
                /\ error s3 = Some failed
                /\ isLoading s3 = false)).
Proof.
  intros env s response H typed failed trouble req. apply truthy_nonempty in H.
  destruct (handleSubmit_run env (input s) s H) as (k & Hrun & Hok & Hfail).
  exists k. eexists. eexists. split; [exact Hrun |]. split.
  - intros Hnull Hundef.
    destruct (get_response (data response)) as [e | v] eqn:Hv.
    { destruct (get_response_throws _ Hv) as [[Hd | Hd] _]; contradiction. }
    exists v. split; [reflexivity |]. split; [| split].
    + rewrite run_with_run, Hrun, run_with_run, (Hok _ _ _ Hv).
      eexists. eexists. split; [reflexivity |]. cbn [messages error].
      rewrite <- app_assoc. split; reflexivity.
    + intros s2. rewrite (Hok _ _ s2 Hv). eexists. eexists.
      split; [reflexivity |]. split; reflexivity.
    + intros text ->. eexists. split; [reflexivity |]. split; [reflexivity |].
      cbn [paragraphs]. apply join_split.
  - intros Hd.
    assert (He : get_response (data response) = inl TypeError)
      by (destruct Hd as [-> | ->]; reflexivity).
    split.
    + rewrite run_with_run, Hrun, run_with_run.
      rewrite (Hfail (Fulfilled response) TypeError _ He).
      eexists. eexists. split; [reflexivity |]. cbn [error messages isLoading].
      rewrite <- app_assoc. repeat split.
    + intros s2. rewrite (Hfail (Fulfilled response) TypeError s2 He).
      eexists. eexists. split; [reflexivity |]. repeat split.
Qed.

Lemma C4_fulfilled_request_witness :
  let s := {| messages := []; input := lit "How many members?";
              isLoading := false; error := None |} in
  let typed := {| role := lit "user"; content := JStr (lit "How many members?") |} in
  (exists s' tr,
      run_with (Fulfilled {| data := JObj [(lit "response", JStr (lit "4188 members"))] |})
        (handleSubmit None (input s)) s = (inr tt, s', tr)
      /\ messages s' =
           [typed;
            {| role := lit "assistant"; content := JStr (lit "4188 members") |}]
      /\ error s' = None)
  /\ (exists s' tr,
        run_with (Fulfilled {| data := JUndefined |})
          (handleSubmit None (input s)) s = (inr tt, s', tr)
        /\ messages s' =
             [typed;
              {| role := lit "assistant";
                 content :=
                   JStr (lit "I'm having trouble connecting to the AI service. Please try again later.") |}]
        /\ error s' = Some (lit "Failed to get response. Please check your connection.")
        /\ isLoading s' = false).
Proof.
  intros s typed. split.
  - destruct (@C4_fulfilled_request None s
                {| data := JObj [(lit "response", JStr (lit "4188 members"))] |})
      as (k & s1 & tr1 & _ & Hok & _); [discriminate |].
    destruct Hok as (v & Hv & Hrun & _); [discriminate | discriminate |].
    injection Hv as <-. exact Hrun.
  - destruct (@C4_fulfilled_request None s {| data := JUndefined |})
      as (k & s1 & tr1 & _ & _ & Hfail); [discriminate |].
    exact (proj1 (Hfail (or_intror eq_refl))).
Defined.

(** C4 as stated fails when the request is fulfilled with the body
    [null]: reading [response] of it throws inside the [try], so the
    assistant message carries the trouble text and the error is set. No
    value read from the body is the content of the appended message. *)
Lemma C4_counterexample_null_body :
  let s := {| messages := []; input := lit "How many members?";
              isLoading := false; error := None |} in
  let response := {| data := JNull |} in
  let typed := {| role := lit "user"; content := JStr (lit "How many members?") |} in
  (exists s' tr,
      run_with (Fulfilled response) (handleSubmit None (input s)) s = (inr tt, s', tr)
      /\ messages s' =
           [typed;
            {| role := lit "assistant";
               content :=
                 JStr (lit "I'm having trouble connecting to the AI service. Please try again later.") |}]
      /\ error s' = Some (lit "Failed to get response. Please check your connection."))
  /\ ~ (exists v,
          get_response (data response) = inr v
          /\ messages (snd (fst (run_with (Fulfilled response)
                                   (handleSubmit None (input s)) s)))
             = [typed; {| role := lit "assistant"; content := v |}]).
Proof.
  intros s response typed. split.
  - eexists. eexists. split; [reflexivity |]. split; reflexivity.
  - intros (v & Hv & _). discriminate Hv.
Qed.

(* ================================================================= *)
(** ** Properties of the page as a transition system *)

Lemma handleSubmit_resumes :
  forall env i s req k s1 tr,
    truthy (trim i) = true ->
    run (handleSubmit env i) s = (Suspended req k, s1, tr) ->
    resumes k.
Proof.
  intros env i s req k s1 tr Hi Hrun.
  destruct (handleSubmit_run env i s Hi) as (k' & Hrun' & Hok & Hfail).
  rewrite Hrun' in Hrun. injection Hrun as _ <- _ _.
  intros r s2.
  assert (Hcases :
            (exists v response, r = Fulfilled response
                                /\ get_response (data response) = inr v)
            \/ (exists e, match r with
                          | Fulfilled response => get_response (data response) = inl e
                          | Rejected reason => e = Reason reason
                          end)).
  { destruct r as [response | reason].
    - destruct (get_response (data response)) as [e | v] eqn:E.
      + right. now exists e.
      + left. now exists v, response.
    - right. now eexists. }
  destruct Hcases as [(v & response & -> & Hv) | (e & He)].
  - rewrite (Hok _ _ s2 Hv). eexists. eexists. eexists.
    split; [reflexivity |]. repeat split.
  - rewrite (Hfail _ _ s2 He). eexists. eexists. eexists.
    split; [reflexivity |]. repeat split.
Qed.

Lemma send_enabled :
  forall s, send_disabled s = false ->
            truthy (trim (input s)) = true /\ isLoading s = false.
Proof.
  intros s H. unfold send_disabled in H.
  apply orb_false_elim in H as [H1 H2].
  apply negb_false_iff in H1. now split.
Qed.

(** What each event does to a page that satisfies [page_inv]. *)
Lemma step_cases :
  forall env pg ev pg',
    page_inv pg ->
    step env pg ev = Some pg' ->
    page_inv pg'
    /\ match ev with
       | Change value =>
           isLoading (state pg) = false
           /\ messages (state pg') = messages (state pg)
           /\ isLoading (state pg') = false
       | Submit =>
           isLoading (state pg) = false
           /\ (exists u, messages (state pg') = messages (state pg) ++ [u]
                         /\ role u = lit "user")
           /\ isLoading (state pg') = true
       | ClearChat =>
           messages (state pg') = []
           /\ isLoading (state pg') = isLoading (state pg)
       | Settle _ _ =>
           isLoading (state pg) = true
           /\ (exists a, messages (state pg') = messages (state pg) ++ [a]
                         /\ role a = lit "assistant")
           /\ isLoading (state pg') = false
       end.
Proof.
  intros env [s fl] ev pg' [Hlen Hres] Hstep. cbn [state in_flight] in *.
  destruct ev as [value | | | i result]; cbn [step state in_flight] in Hstep.
  - unfold input_disabled in Hstep. destruct (isLoading s) eqn:Hl; [discriminate |].
    injection Hstep as <-. cbn. rewrite Hl. repeat split; assumption.
  - destruct (send_disabled s) eqn:Hd; [discriminate |].
    apply send_enabled in Hd as [Hi Hl]. injection Hstep as <-.
    destruct (handleSubmit_run env (input s) s Hi) as (k & Hrun & _).
    pose proof (handleSubmit_resumes _ _ _ Hi Hrun) as Hk.
    unfold dispatch. cbn [state]. rewrite Hrun. cbn [state in_flight messages isLoading].
    rewrite Hl in Hlen. destruct fl as [| x fl]; [| discriminate].
    repeat split.
    + constructor; [exact Hk | constructor].
    + assumption.
    + eexists. split; reflexivity.
  - injection Hstep as <-. cbn. destruct (isLoading s); repeat split; assumption.
  - destruct (nth_error fl i) as [[req k] |] eqn:Hn; [| discriminate].
    injection Hstep as <-.
    destruct (isLoading s) eqn:Hl.
    2:{ destruct fl; [destruct i; discriminate | discriminate]. }
    destruct fl as [| x [| y fl]]; try discriminate.
    destruct i as [| i]; [| destruct i; discriminate].
    cbn in Hn. injection Hn as ->.
    apply Forall_inv in Hres. cbn in Hres.
    destruct (Hres result s) as (a & s3 & tr & Hrun & Hm & Ha & _ & Hl3).
    unfold dispatch. cbn [state in_flight firstn skipn app]. rewrite Hrun.
    unfold page_inv. cbn [state in_flight List.length]. rewrite Hl3.
    repeat split.
    + constructor.
    + exists a. now split.
Qed.

Lemma steps_page_inv :
  forall env evs pg pg',
    page_inv pg -> steps env pg evs = Some pg' -> page_inv pg'.
Proof.
  intros env evs. induction evs as [| ev rest IH]; intros pg pg' Hinv Hsteps; cbn in Hsteps.
  - now injection Hsteps as <-.
  - destruct (step env pg ev) as [pg1 |] eqn:Hstep; [| discriminate].
    apply (IH pg1); [| assumption].
    exact (proj1 (@step_cases env pg ev pg1 Hinv Hstep)).
Qed.

Lemma page_initial_inv : page_inv page_initial.
Proof.
  split; [reflexivity | constructor].
Qed.

(** C6. In every state the page reaches, the text input and the Send
    button are disabled while [isLoading] is set, [isLoading] is set
    exactly while a request is in flight, and at most one request is in
    flight. *)
Theorem C6_one_request_in_flight :
  forall env evs pg,
    steps env page_initial evs = Some pg ->
    (isLoading (state pg) = true ->
       input_disabled (state pg) = true /\ send_disabled (state pg) = true)
    /\ List.length (in_flight pg) = (if isLoading (state pg) then 1 else 0)
    /\ List.length (in_flight pg) <= 1.
Proof.
  intros env evs pg Hsteps.
  destruct (steps_page_inv env evs page_initial_inv Hsteps) as [Hlen _].
  split; [| split].
  - intros Hl. unfold input_disabled, send_disabled. rewrite Hl.
    split; [reflexivity | apply orb_true_r].
  - exact Hlen.
  - rewrite Hlen. destruct (isLoading (state pg)); lia.
Qed.

Lemma C6_one_request_in_flight_witness :
  exists pg,
    steps None page_initial [Change (lit "Show me jobs"); Submit] = Some pg
    /\ isLoading (state pg) = true
    /\ input_disabled (state pg) = true
    /\ send_disabled (state pg) = true
    /\ List.length (in_flight pg) = 1.
Proof.
  eexists. split; [reflexivity |].
  match goal with
  | |- isLoading (state ?pg) = _ /\ _ =>
      pose proof (@C6_one_request_in_flight None
                    [Change (lit "Show me jobs"); Submit] pg eq_refl)
        as (Hdisabled & Hlen & _)
  end.
  split; [reflexivity |].
  destruct (Hdisabled eq_refl) as [Hin Hsend].
  split; [exact Hin |]. split; [exact Hsend | exact Hlen].
Defined.

Lemma alternates_from_app :
  forall l1 l2 b,
    alternates_from b (l1 ++ l2) =
      alternates_from b l1
      && alternates_from (if Nat.even (List.length l1) then b else negb b) l2.
Proof.
  induction l1 as [| m l1 IH]; intros l2 b.
  - reflexivity.
  - cbn [app alternates_from List.length]. rewrite IH, <- andb_assoc.
    f_equal. f_equal. rewrite Nat.even_succ, <- Nat.negb_even.
    destruct (Nat.even (List.length l1)); cbn; [reflexivity |].
    now rewrite negb_involutive.
Qed.

Lemma length_snoc :
  forall (l : list Message) m,
    Nat.even (List.length (l ++ [m])) = negb (Nat.even (List.length l)).
Proof.
  intros l m. rewrite length_app. cbn [List.length].
  rewrite Nat.add_1_r, Nat.even_succ. symmetry. apply Nat.negb_even.
Qed.

Lemma user_is_not_assistant : Js.eqb (lit "user") (lit "assistant") = false.
Proof. reflexivity. Qed.

(** In an alternating list the role that starts it is ahead by one in a
    list of odd length and level in a list of even length. *)
Lemma alternates_counts :
  forall l b,
    alternates_from b l = true ->
    let odd := if Nat.even (List.length l) then 0 else 1 in
    if b then count_role (lit "user") l = count_role (lit "assistant") l + odd
    else count_role (lit "assistant") l = count_role (lit "user") l + odd.
Proof.
  unfold count_role.
  induction l as [| m l IH]; intros b H.
  - destruct b; reflexivity.
  - cbn [alternates_from] in H. apply andb_prop in H as [Hm Hl].
    apply js_eqb_eq in Hm. specialize (IH (negb b) Hl).
    cbn [filter List.length]. rewrite Nat.even_succ, <- Nat.negb_even.
    rewrite Hm.
    destruct b; cbn [negb] in IH; cbv zeta in *.
    + rewrite js_eqb_refl, user_is_not_assistant. cbn [List.length].
      revert IH. destruct (Nat.even (List.length l)); cbn [negb]; intros; lia.
    + replace (Js.eqb (lit "assistant") (lit "user")) with false by reflexivity.
      rewrite js_eqb_refl. cbn [List.length].
      revert IH. destruct (Nat.even (List.length l)); cbn [negb]; intros; lia.
Qed.

Lemma steps_shape_inv :
  forall env evs pg pg',
    page_inv pg -> shape_inv pg ->
    steps env pg evs = Some pg' ->
    clears_when_idle env pg evs = true ->
    shape_inv pg'.
Proof.
  intros env evs. induction evs as [| ev rest IH];
    intros pg pg' Hinv Hshape Hsteps Hclear; cbn in Hsteps, Hclear.
  - now injection Hsteps as <-.
  - destruct (step env pg ev) as [pg1 |] eqn:Hstep; [| discriminate].
    apply andb_prop in Hclear as [Hidle Hclear].
    destruct (@step_cases env pg ev pg1 Hinv Hstep) as [Hinv1 Hev].
    apply (IH pg1); try assumption.
    destruct Hshape as [Halt Heven]. unfold shape_inv, alternates in *.
    destruct ev as [value | | | i result].
    + destruct Hev as (Hl & -> & ->). now rewrite Hl in Heven.
    + destruct Hev as (Hl & (u & -> & Hu) & ->). rewrite Hl in Heven.
      rewrite alternates_from_app, length_snoc, Halt, Heven.
      cbn. now rewrite Hu, js_eqb_refl.
    + destruct Hev as (-> & ->). apply negb_true_iff in Hidle.
      rewrite Hidle. split; reflexivity.
    + destruct Hev as (Hl & (a & -> & Ha) & ->). rewrite Hl in Heven.
      rewrite alternates_from_app, length_snoc, Halt, Heven.
      cbn. now rewrite Ha, js_eqb_refl.
Qed.

Lemma page_initial_shape : shape_inv page_initial.
Proof.
  split; reflexivity.
Qed.

(** C7, as amended. Starting from the empty list, after every sequence of
    typing, submits, clears and responses in which "Clear Chat" is never
    clicked while a request is in flight, once every submit has completed
    the roles of the list alternate "user", "assistant", ... from "user",
    the list is of even length and holds as many user messages as
    assistant messages. *)
Theorem C7_roles_alternate :
  forall env evs pg,
    steps env page_initial evs = Some pg ->
    clears_when_idle env page_initial evs = true ->
    isLoading (state pg) = false ->
    alternates (messages (state pg)) = true
    /\ Nat.even (List.length (messages (state pg))) = true
    /\ count_role (lit "user") (messages (state pg))
       = count_role (lit "assistant") (messages (state pg)).
Proof.
  intros env evs pg Hsteps Hclear Hidle.
  destruct (@steps_shape_inv env evs page_initial pg
              page_initial_inv page_initial_shape Hsteps Hclear) as [Halt Heven].
  rewrite Hidle in Heven. cbn [negb] in Heven.
  split; [exact Halt |]. split; [exact Heven |].
  pose proof (@alternates_counts (messages (state pg)) true Halt) as Hcount.
  cbv beta iota zeta in Hcount. rewrite Heven in Hcount. lia.
Qed.

Lemma C7_roles_alternate_witness :
  let ok := Fulfilled {| data := JObj [(lit "response", JStr (lit "35 jobs"))] |} in
  let evs := [Change (lit "Show me jobs"); Submit; Settle 0 ok; ClearChat;
              Change (lit "Find member Anand"); Submit; Settle 0 (Rejected JNull);
              Change (lit "How many members?"); Submit; Settle 0 ok] in
  exists pg,
    steps None page_initial evs = Some pg
    /\ List.length (messages (state pg)) = 4
    /\ alternates (messages (state pg)) = true
    /\ count_role (lit "user") (messages (state pg))
       = count_role (lit "assistant") (messages (state pg)).
Proof.
  intros ok evs. eexists. split; [reflexivity |]. split; [reflexivity |].
  match goal with
  | |- alternates (messages (state ?pg)) = _ /\ _ =>
      pose proof (@C7_roles_alternate None evs pg eq_refl eq_refl eq_refl)
        as (Halt & _ & Hcount)
  end.
  split; [exact Halt | exact Hcount].
Defined.

(** C7 as stated fails when "Clear Chat" is clicked while the request of
    a submit is in flight: the button is never disabled, the clear empties
    the list, and the response then appends its assistant message to the
    empty list. Both operations have completed; the list holds one
    message, of role "assistant". *)
Lemma C7_counterexample_clear_while_loading :
  let ok := Fulfilled {| data := JObj [(lit "response", JStr (lit "35 jobs"))] |} in
  exists pg,
    steps None page_initial [Change (lit "Show me jobs"); Submit; ClearChat; Settle 0 ok]
      = Some pg
    /\ isLoading (state pg) = false
    /\ in_flight pg = []
    /\ messages (state pg) = [assistant_message (JStr (lit "35 jobs"))]
    /\ alternates (messages (state pg)) = false
    /\ Nat.even (List.length (messages (state pg))) = false
    /\ count_role (lit "user") (messages (state pg))
       <> count_role (lit "assistant") (messages (state pg)).
Proof.
  intros ok. eexists. split; [reflexivity |].
  repeat split. cbv. discriminate.
Qed.

(* ================================================================= *)
(** ** Further properties of the gate, its matcher and its variants *)

(** X1. The matcher turns down every path that goes on from [/api],
    [/_next/static] or [/_next/image], and every path that goes on from
    [/favicon], one code unit that is no line terminator and [ico] (the
    dot of the pattern is a wildcard), likewise for [logo.png]: on these
    the gate is never run, whatever follows the prefix. *)
Theorem matcher_excluded_prefixes :
  forall rest : JsString,
    Middleware.matcher (lit "/api" ++ rest) = false
    /\ Middleware.matcher (lit "/_next/static" ++ rest) = false
    /\ Middleware.matcher (lit "/_next/image" ++ rest) = false
    /\ (forall c, is_line_terminator c = false ->
          Middleware.matcher (lit "/favicon" ++ c :: lit "ico" ++ rest) = false
          /\ Middleware.matcher (lit "/logo" ++ c :: lit "png" ++ rest) = false).
Proof.
  intros rest. repeat split; try reflexivity.
  - cbv [lit list_ascii_of_string map app N_of_ascii N_of_digits Middleware.matcher
         Middleware.excluded Middleware.pattern_of existsb Middleware.looking_at
         Middleware.pat_char_matches].
    cbn. rewrite H. reflexivity.
  - cbv [lit list_ascii_of_string map app N_of_ascii N_of_digits Middleware.matcher
         Middleware.excluded Middleware.pattern_of existsb Middleware.looking_at
         Middleware.pat_char_matches].
    cbn. rewrite H. reflexivity.
Qed.

Lemma matcher_excluded_prefixes_witness :
  Middleware.matcher (lit "/api/auth/session") = false
  /\ Middleware.matcher (lit "/favicon.ico") = false
  /\ Middleware.matcher (lit "/logo-png") = false.
Proof.
  split; [| split].
  - exact (proj1 (matcher_excluded_prefixes (lit "/auth/session"))).
  - exact (proj1 (proj2 (proj2 (proj2 (matcher_excluded_prefixes (lit ""))))
                    46%N eq_refl)).
  - exact (proj2 (proj2 (proj2 (proj2 (matcher_excluded_prefixes (lit ""))))
                    45%N eq_refl)).
Defined.

(** X2. The sign-in page is behind the gate. On every request the matcher
    accepts and that has no session, the gate redirects to a URL whose
    path the matcher accepts too, and a request for that URL without a
    session is answered with the same redirect: a visitor without a
    session is sent to [/login] again and again. *)
Theorem login_redirect_loops :
  forall req : NextAuthRequest,
    Middleware.matcher (pathname (nextUrl req)) = true ->
    auth req = None ->
    exists resp,
      Middleware.middleware req = Some resp
      /\ Middleware.matcher (pathname (location resp)) = true
      /\ Middleware.middleware {| auth := None; nextUrl := location resp |}
         = Some resp.
Proof.
  intros req Hm Hauth. apply matcher_startsWith_slash in Hm.
  rewrite (middleware_on_rooted_path req Hm), Hauth.
  eexists. split; [reflexivity |]. split; reflexivity.
Qed.

Lemma login_redirect_loops_witness :
  let req :=
    {| auth := None;
       nextUrl := {| origin := lit "https://gmg.example"; pathname := lit "/" |} |} in
  exists resp,
    Middleware.middleware req = Some resp
    /\ Middleware.matcher (pathname (location resp)) = true
    /\ Middleware.middleware {| auth := None; nextUrl := location resp |}
       = Some resp.
Proof.
  intros req. apply (login_redirect_loops req); reflexivity.
Defined.

Lemma Part004_on_session :
  forall req,
    Part004.middleware req =
      if startsWith (pathname (nextUrl req)) (lit "/")
         && negb (to_boolean (optional_user (auth req)))
      then Some (Response_redirect
                   {| origin := origin (nextUrl req); pathname := lit "/login" |})
      else None.
Proof.
  reflexivity.
Qed.

(** X3. The gate of part_004 and the three [authorized] callbacks decide
    alike: on every request the gate lets the request through exactly
    when each callback returns [true], and what it answers otherwise is
    the redirect to [/login] at the origin of the request. *)
Theorem Part004_gate_is_authorized :
  forall req : NextAuthRequest,
    (Part004.middleware req = None <->
       Part006.authorized (auth req) (nextUrl req) = true)
    /\ Part000.authorized (auth req) (nextUrl req)
       = Part006.authorized (auth req) (nextUrl req)
    /\ Part001Route.authorized (auth req) (nextUrl req)
       = Part006.authorized (auth req) (nextUrl req)
    /\ (Part006.authorized (auth req) (nextUrl req) = false ->
          Part004.middleware req =
            Some (Response_redirect
                    {| origin := origin (nextUrl req); pathname := lit "/login" |})).
Proof.
  intros req. rewrite Part004_on_session.
  unfold Part000.authorized, Part001Route.authorized, Part006.authorized.
  destruct (startsWith (pathname (nextUrl req)) (lit "/"));
    destruct (to_boolean (optional_user (auth req))); cbn;
    repeat split; intros; congruence.
Qed.

Lemma Part004_gate_is_authorized_witness :
  let req :=
    {| auth := Some {| user := None |};
       nextUrl := {| origin := lit "https://gmg.example"; pathname := lit "/chat" |} |} in
  Part006.authorized (auth req) (nextUrl req) = false
  /\ Part004.middleware req =
       Some (Response_redirect
               {| origin := lit "https://gmg.example"; pathname := lit "/login" |}).
Proof.
  intros req. split; [reflexivity |].
  exact (proj2 (proj2 (proj2 (Part004_gate_is_authorized req))) eq_refl).
Defined.

(** X4. The gate of [src/middleware.ts] tests the session, the gate of
    part_004 the user of the session. The two answer differently exactly
    on the requests whose path starts with a slash and whose session has
    no user: [src/middleware.ts] lets those through, part_004 redirects
    them to [/login] at the origin of the request. *)
Theorem middleware_differs_from_Part004 :
  forall req : NextAuthRequest,
    (Middleware.middleware req <> Part004.middleware req
     <-> (startsWith (pathname (nextUrl req)) (lit "/") = true
          /\ exists session, auth req = Some session /\ user session = None))
    /\ (startsWith (pathname (nextUrl req)) (lit "/") = true ->
        forall session, auth req = Some session -> user session = None ->
          Middleware.middleware req = None
          /\ Part004.middleware req =
               Some (Response_redirect
                       {| origin := origin (nextUrl req);
                          pathname := lit "/login" |})).
Proof.
  intros req. split.
  - rewrite Part004_on_session. unfold Middleware.middleware.
    destruct (startsWith (pathname (nextUrl req)) (lit "/")) eqn:Hp;
      destruct (auth req) as [[[u |]] |] eqn:Ha; cbn; split.
    all: try (intros H; exfalso; apply H; reflexivity).
    all: try (intros [Hs (session & Hsome & Hu)]; try discriminate;
              injection Hsome as <-; cbn in Hu; discriminate).
    intros _. split; [reflexivity |]. eexists. split; reflexivity.
  - intros Hp session Ha Hu.
    rewrite Part004_on_session. unfold Middleware.middleware.
    rewrite Hp, Ha. cbn. rewrite Hu. split; reflexivity.
Qed.

Lemma middleware_differs_from_Part004_witness :
  let req :=
    {| auth := Some {| user := None |};
       nextUrl := {| origin := lit "https://gmg.example"; pathname := lit "/chat" |} |} in
  Middleware.middleware req = None
  /\ Part004.middleware req =
       Some (Response_redirect
               {| origin := lit "https://gmg.example"; pathname := lit "/login" |}).
Proof.
  intros req.
  exact (proj2 (middleware_differs_from_Part004 req) eq_refl _ eq_refl eq_refl).
Defined.

(** X5. The gate of part_003 decides as the gate of part_004 does, and
    every redirect it answers with goes to [http://localhost:3000/login],
    whatever the origin of the request. *)
Theorem Part003_redirects_to_localhost :
  forall req : NextAuthRequest,
    (Part003.middleware req = None <-> Part004.middleware req = None)
    /\ (forall resp, Part003.middleware req = Some resp ->
          status resp = 302%N
          /\ href (location resp) = lit "http://localhost:3000/login").
Proof.
  intros req. rewrite Part004_on_session. unfold Part003.middleware.
  destruct (startsWith (pathname (nextUrl req)) (lit "/")
            && negb (to_boolean (optional_user (auth req)))).
  - split; [split; discriminate |].
    intros resp H. injection H as <-. split; reflexivity.
  - split; [split; reflexivity | discriminate].
Qed.

Lemma Part003_redirects_to_localhost_witness :
  let req :=
    {| auth := None;
       nextUrl := {| origin := lit "https://gmg.example"; pathname := lit "/chat" |} |} in
  exists resp,
    Part003.middleware req = Some resp
    /\ href (location resp) = lit "http://localhost:3000/login".
Proof.
  intros req. eexists. split; [reflexivity |].
  exact (proj2 (proj2 (Part003_redirects_to_localhost req) _ eq_refl)).
Defined.

(* ================================================================= *)
(** ** Further properties of the chat page *)

Lemma trimStart_split :
  forall s, exists p,
    s = p ++ trimStart s
    /\ forallb is_trimmed_char p = true
    /\ starts_clean (trimStart s) = true.
Proof.
  induction s as [| c r (p & Hp & Hws & Hclean)].
  - exists []. repeat split.
  - cbn [trimStart]. destruct (is_trimmed_char c) eqn:Hc.
    + exists (c :: p). cbn. rewrite Hc, Hws, <- Hp. repeat split. exact Hclean.
    + exists []. cbn. rewrite Hc. repeat split.
Qed.

Lemma trimStart_clean : forall s, starts_clean s = true -> trimStart s = s.
Proof.
  intros [| c r] H; [reflexivity |]. cbn in *.
  apply negb_true_iff in H. now rewrite H.
Qed.

Lemma forallb_rev :
  forall (f : N -> bool) l, forallb f (rev l) = forallb f l.
Proof.
  intros f l. induction l as [| c r IH]; [reflexivity |].
  cbn. rewrite forallb_app, IH. cbn. rewrite andb_true_r. apply andb_comm.
Qed.

Lemma trimEnd_split :
  forall s, exists q,
    s = trimEnd s ++ q
    /\ forallb is_trimmed_char q = true
    /\ ends_clean (trimEnd s) = true.
Proof.
  intros s. destruct (trimStart_split (rev s)) as (p & Hp & Hws & Hclean).
  exists (rev p). unfold trimEnd, ends_clean. rewrite rev_involutive.
  repeat split.
  - rewrite <- rev_app_distr, <- Hp. symmetry. apply rev_involutive.
  - now rewrite forallb_rev.
  - exact Hclean.
Qed.

Lemma starts_clean_prefix :
  forall a b, starts_clean (a ++ b) = true -> a <> [] -> starts_clean a = true.
Proof.
  intros [| c a] b H Ha; [congruence | exact H].
Qed.

(** What [trim] does to a string: it cuts a run of stripped code units
    off each end and leaves a string that neither begins nor ends with
    one. *)
Lemma trim_split :
  forall s, exists p q,
    s = p ++ trim s ++ q
    /\ forallb is_trimmed_char p = true
    /\ forallb is_trimmed_char q = true
    /\ starts_clean (trim s) = true
    /\ ends_clean (trim s) = true.
Proof.
  intros s. unfold trim.
  destruct (trimStart_split s) as (p & Hp & Hpws & Hclean).
  destruct (trimEnd_split (trimStart s)) as (q & Hq & Hqws & Hend).
  exists p, q. repeat split; try assumption.
  - now rewrite <- Hq.
  - destruct (trimEnd (trimStart s)) as [| c r] eqn:E; [reflexivity |].
    rewrite Hq in Hclean. exact Hclean.
Qed.

Lemma trim_clean :
  forall s, starts_clean s = true -> ends_clean s = true -> trim s = s.
Proof.
  intros s Hs He. unfold trim, trimEnd. rewrite (trimStart_clean s Hs).
  unfold ends_clean in He. rewrite (trimStart_clean _ He). apply rev_involutive.
Qed.

Lemma trim_idempotent : forall s, trim (trim s) = trim s.
Proof.
  intros s. destruct (trim_split s) as (p & q & _ & _ & _ & Hs & He).
  now apply trim_clean.
Qed.

(** X6. The text [handleSubmit] sends and shows is the input without the
    white space and line terminators around it: the input is the text
    between two runs of stripped code units, the text begins and ends
    with none, and trimming it again changes nothing. *)
Theorem submitted_text_is_trimmed_input :
  forall env i s,
    trim i <> lit "" ->
    exists k s1 tr text p q,
      run (handleSubmit env i) s =
        (Suspended
           {| url := API_URL env ++ lit "/chat";
              body := JObj [(lit "message", JStr text);
                            (lit "model", JStr (lit "mistral"))] |} k, s1, tr)
      /\ messages s1 =
           messages s ++ [{| role := lit "user"; content := JStr text |}]
      /\ i = p ++ text ++ q
      /\ forallb is_trimmed_char p = true
      /\ forallb is_trimmed_char q = true
      /\ starts_clean text = true
      /\ ends_clean text = true
      /\ trim text = text.
Proof.
  intros env i s H. apply truthy_nonempty in H.
  destruct (handleSubmit_run env i s H) as (k & Hrun & _).
  destruct (trim_split i) as (p & q & Hi & Hp & Hq & Hs & He).
  exists k. eexists. eexists. exists (trim i), p, q.
  split; [exact Hrun |]. cbn [messages].
  repeat split; try assumption. apply trim_idempotent.
Qed.

Lemma submitted_text_is_trimmed_input_witness :
  let s := {| messages := []; input := lit "  Find member   Anand ";
              isLoading := false; error := None |} in
  trim (input s) = lit "Find member   Anand"
  /\ exists k s1 tr text p q,
      run (handleSubmit None (input s)) s
        = (Suspended
             {| url := lit "http://localhost:8000/api/chat";
                body := JObj [(lit "message", JStr text);
                              (lit "model", JStr (lit "mistral"))] |} k, s1, tr)
      /\ messages s1 =
           messages s ++ [{| role := lit "user"; content := JStr text |}]
      /\ input s = p ++ text ++ q
      /\ forallb is_trimmed_char p = true
      /\ forallb is_trimmed_char q = true
      /\ starts_clean text = true
      /\ ends_clean text = true
      /\ trim text = text.
Proof.
  intros s. split; [reflexivity |].
  apply (submitted_text_is_trimmed_input None (input s) s). discriminate.
Defined.

Lemma handleSubmit_resumes_fully :
  forall env i s req k s1 tr,
    truthy (trim i) = true ->
    run (handleSubmit env i) s = (Suspended req k, s1, tr) ->
    resumes_fully k.
Proof.
  intros env i s req k s1 tr Hi Hrun.
  destruct (handleSubmit_run env i s Hi) as (k' & Hrun' & Hok & Hfail).
  rewrite Hrun' in Hrun. injection Hrun as _ <- _ _.
  intros r s2.
  destruct r as [response | reason].
  - destruct (get_response (data response)) as [e | v] eqn:E.
    + rewrite (Hfail (Fulfilled response) e s2 E).
      eexists. eexists. split; [reflexivity |]. repeat split.
      right. split; reflexivity.
    + rewrite (Hok response v s2 E).
      eexists. eexists. split; [reflexivity |]. repeat split.
      left. exists v. split; reflexivity.
  - rewrite (Hfail (Rejected reason) (Reason reason) s2 eq_refl).
    eexists. eexists. split; [reflexivity |]. repeat split.
    right. split; reflexivity.
Qed.

Lemma next_is_user_snoc :
  forall b l m, next_is_user b (l ++ [m]) = negb (next_is_user b l).
Proof.
  intros b l m. unfold next_is_user. rewrite length_snoc.
  destruct (Nat.even (List.length l)); cbn; [reflexivity |].
  symmetry. apply negb_involutive.
Qed.

Lemma alternates_from_snoc :
  forall b l m,
    alternates_from b (l ++ [m]) =
      alternates_from b l
      && Js.eqb (role m)
           (if next_is_user b l then lit "user" else lit "assistant").
Proof.
  intros b l m. rewrite alternates_from_app. cbn [alternates_from].
  now rewrite andb_true_r.
Qed.

(** What a submit from the form does to a page that satisfies [page_ok]. *)
Lemma submit_step :
  forall env pg pg',
    page_ok pg ->
    step env pg Submit = Some pg' ->
    truthy (trim (input (state pg))) = true
    /\ isLoading (state pg) = false
    /\ exists k,
         resumes_fully k
         /\ pg' =
              {| state :=
                   {| messages := messages (state pg)
                                    ++ [user_message (trim (input (state pg)))];
                      input := lit ""; isLoading := true; error := None |};
                 in_flight :=
                   [(chat_request env (trim (input (state pg))), k)] |}.
Proof.
  intros env [s fl] pg' (Hlen & _) Hstep. cbn [state in_flight step] in *.
  destruct (send_disabled s) eqn:Hd; [discriminate |].
  apply send_enabled in Hd as [Hi Hl]. injection Hstep as <-.
  destruct (handleSubmit_run env (input s) s Hi) as (k & Hrun & _).
  pose proof (handleSubmit_resumes_fully _ _ _ Hi Hrun) as Hk.
  rewrite Hl in Hlen. destruct fl as [| x fl]; [| discriminate].
  split; [exact Hi |]. split; [exact Hl |]. exists k. split; [exact Hk |].
  unfold dispatch. cbn [state]. rewrite Hrun. reflexivity.
Qed.

(** What a settlement does to a page that satisfies [page_ok]. *)
Lemma settle_step :
  forall env pg i r pg',
    page_ok pg ->
    step env pg (Settle i r) = Some pg' ->
    i = 0
    /\ isLoading (state pg) = true
    /\ in_flight pg' = []
    /\ input (state pg') = input (state pg)
    /\ isLoading (state pg') = false
    /\ ((exists v, messages (state pg') = messages (state pg) ++ [assistant_message v]
                   /\ error (state pg') = error (state pg))
        \/ (messages (state pg')
              = messages (state pg) ++ [assistant_message (JStr trouble_text)]
            /\ error (state pg') = Some connection_error)).
Proof.
  intros env [s fl] i r pg' (Hlen & Hres & _) Hstep. cbn [state in_flight step] in *.
  destruct (nth_error fl i) as [[req k] |] eqn:Hn; [| discriminate].
  injection Hstep as <-.
  destruct (isLoading s) eqn:Hl.
  2:{ destruct fl; [destruct i; discriminate | discriminate]. }
  destruct fl as [| x [| y fl]]; try discriminate.
  destruct i as [| i]; [| destruct i; discriminate].
  cbn in Hn. injection Hn as ->.
  apply Forall_inv in Hres. cbn in Hres.
  destruct (Hres r s) as (s3 & tr & Hrun & _ & Hin & Hl3 & Hcases).
  unfold dispatch. cbn [state in_flight firstn skipn app]. rewrite Hrun.
  cbn [state in_flight]. repeat split; assumption.
Qed.

Lemma step_page_ok :
  forall env pg ev pg',
    page_ok pg -> step env pg ev = Some pg' -> page_ok pg'.
Proof.
  intros env pg ev pg' Hok Hstep.
  destruct ev as [value | | | i r].
  - (* typing *)
    destruct pg as [s fl].
    destruct Hok as (Hlen & Hres & Hload & Herr & Hwf & b & Halt & Hnext).
    cbn [state in_flight step] in *. unfold input_disabled in Hstep.
    destruct (isLoading s) eqn:Hl; [discriminate |]. injection Hstep as <-.
    unfold page_ok. cbn. rewrite Hl.
    split; [assumption |]. split; [assumption |]. split; [discriminate |].
    split; [assumption |]. split; [assumption |].
    exists b. now split.
  - (* submit *)
    destruct (@submit_step env pg pg' Hok Hstep) as (Hi & Hl & k & Hk & ->).
    destruct Hok as (_ & _ & _ & _ & Hwf & b & Halt & Hnext).
    rewrite Hl in Hnext. cbn [negb] in Hnext.
    unfold page_ok. cbn [state in_flight messages input isLoading error List.length].
    split; [reflexivity |].
    split; [constructor; [exact Hk | constructor] |].
    split; [intros _; split; reflexivity |].
    split; [discriminate |].
    split.
    + apply Forall_app. split; [exact Hwf |]. constructor; [| constructor].
      right. exists (trim (input (state pg))).
      split; [reflexivity |]. split; [| apply trim_idempotent].
      destruct (trim (input (state pg))); [discriminate Hi | discriminate].
    + exists b. rewrite alternates_from_snoc, next_is_user_snoc, Halt, Hnext.
      split; reflexivity.
  - (* clear *)
    destruct pg as [s fl].
    destruct Hok as (Hlen & Hres & Hload & Herr & Hwf & b & Halt & Hnext).
    cbn [state in_flight step] in *. injection Hstep as <-.
    unfold page_ok. cbn.
    split; [assumption |]. split; [assumption |].
    split; [intros Hl; now destruct (Hload Hl) |].
    split; [discriminate |]. split; [constructor |].
    exists (negb (isLoading s)). split; reflexivity.
  - (* a response *)
    destruct (@settle_step env pg i r pg' Hok Hstep) as (-> & Hl & Hfl & Hin & Hl' & Hcases).
    destruct Hok as (_ & _ & Hload & _ & Hwf & b & Halt & Hnext).
    destruct (Hload Hl) as [_ Hnoerr].
    rewrite Hl in Hnext. cbn [negb] in Hnext.
    unfold page_ok. cbv zeta. rewrite Hfl, Hl'.
    split; [reflexivity |]. split; [constructor |]. split; [discriminate |].
    destruct Hcases as [(v & Hm & He) | (Hm & He)]; rewrite Hm, He.
    + split; [rewrite Hnoerr; discriminate |].
      split.
      * apply Forall_app. split; [exact Hwf |]. constructor; [now left | constructor].
      * exists b. rewrite alternates_from_snoc, next_is_user_snoc, Halt, Hnext.
        split; reflexivity.
    + split; [intros e [= <-]; split; [reflexivity | now eexists] |].
      split.
      * apply Forall_app. split; [exact Hwf |]. constructor; [now left | constructor].
      * exists b. rewrite alternates_from_snoc, next_is_user_snoc, Halt, Hnext.
        split; reflexivity.
Qed.

Lemma steps_page_ok :
  forall env evs pg pg',
    page_ok pg -> steps env pg evs = Some pg' -> page_ok pg'.
Proof.
  intros env evs. induction evs as [| ev rest IH]; intros pg pg' Hok Hsteps; cbn in Hsteps.
  - now injection Hsteps as <-.
  - destruct (step env pg ev) as [pg1 |] eqn:Hstep; [| discriminate].
    apply (IH pg1); [| assumption].
    exact (@step_page_ok env pg ev pg1 Hok Hstep).
Qed.

Lemma page_initial_ok : page_ok page_initial.
Proof.
  unfold page_ok. cbn.
  split; [reflexivity |]. split; [constructor |]. split; [discriminate |].
  split; [discriminate |]. split; [constructor |].
  exists true. split; reflexivity.
Qed.

(** X7. In every state the page reaches, each message of the list is an
    assistant message or a user message whose content is a string that is
    not empty and has no white space around it. *)
Theorem reachable_messages_well_formed :
  forall env evs pg,
    steps env page_initial evs = Some pg ->
    forall m, In m (messages (state pg)) ->
      role m = lit "assistant"
      \/ (role m = lit "user"
          /\ exists text, content m = JStr text
                          /\ text <> lit ""
                          /\ trim text = text).
Proof.
  intros env evs pg Hsteps m Hin.
  destruct (steps_page_ok env evs page_initial_ok Hsteps)
    as (_ & _ & _ & _ & Hwf & _).
  rewrite Forall_forall in Hwf.
  destruct (Hwf m Hin) as [Ha | (text & -> & Hne & Htrim)].
  - now left.
  - right. split; [reflexivity |]. now exists text.
Qed.

Lemma reachable_messages_well_formed_witness :
  exists pg,
    steps None page_initial
      [Change (lit " hi "); Submit; Settle 0 (Rejected JNull)] = Some pg
    /\ forall m, In m (messages (state pg)) ->
         role m = lit "assistant"
         \/ (role m = lit "user"
             /\ exists text, content m = JStr text
                             /\ text <> lit ""
                             /\ trim text = text).
Proof.
  eexists. split; [reflexivity |].
  apply (@reachable_messages_well_formed None
           [Change (lit " hi "); Submit; Settle 0 (Rejected JNull)]).
  reflexivity.
Defined.

(** X8. In every state the page reaches, the error is [null] or the
    connection error text; when it is set no request is in flight and
    the last message of the list is the trouble message. *)
Theorem reachable_error :
  forall env evs pg,
    steps env page_initial evs = Some pg ->
    forall e, error (state pg) = Some e ->
      e = lit "Failed to get response. Please check your connection."
      /\ isLoading (state pg) = false
      /\ exists pre,
           messages (state pg) =
             pre ++ [{| role := lit "assistant";
                        content :=
                          JStr (lit "I'm having trouble connecting to the AI service. Please try again later.") |}].
Proof.
  intros env evs pg Hsteps e He.
  destruct (steps_page_ok env evs page_initial_ok Hsteps)
    as (_ & _ & Hload & Herr & _).
  destruct (Herr e He) as [-> Hlast]. split; [reflexivity |]. split; [| exact Hlast].
  destruct (isLoading (state pg)); [| reflexivity].
  destruct (Hload eq_refl) as [_ Hnone]. congruence.
Qed.

Lemma reachable_error_witness :
  exists pg,
    steps None page_initial
      [Change (lit "hi"); Submit; Settle 0 (Rejected JNull); Change (lit "again")]
      = Some pg
    /\ error (state pg) = Some (lit "Failed to get response. Please check your connection.")
    /\ isLoading (state pg) = false
    /\ exists pre,
         messages (state pg) =
           pre ++ [{| role := lit "assistant";
                      content :=
                        JStr (lit "I'm having trouble connecting to the AI service. Please try again later.") |}].
Proof.
  eexists. split; [reflexivity |]. split; [reflexivity |].
  exact (proj2 (@reachable_error None
                  [Change (lit "hi"); Submit; Settle 0 (Rejected JNull);
                   Change (lit "again")] _ eq_refl connection_error eq_refl)).
Defined.

(** X9. In every state the page reaches, while a request is in flight the
    input is the empty string and the error is [null]: the page that is
    rendered never shows the bouncing dots and the error banner together,
    and shows the dots over an empty, disabled form. *)
Theorem loading_page :
  forall env evs pg,
    steps env page_initial evs = Some pg ->
    isLoading (state pg) = true ->
    input (state pg) = lit ""
    /\ error (state pg) = None
    /\ forall view, render (state pg) = Some view ->
         loading_dots view = true
         /\ error_banner view = None
         /\ input_value view = lit ""
         /\ input_is_disabled view = true
         /\ send_is_disabled view = true.
Proof.
  intros env evs pg Hsteps Hl.
  destruct (steps_page_ok env evs page_initial_ok Hsteps) as (_ & _ & Hload & _).
  destruct (Hload Hl) as [Hin Herr]. split; [exact Hin |]. split; [exact Herr |].
  intros view Hview. unfold render in Hview.
  destruct (render_messages (messages (state pg))); [| discriminate].
  injection Hview as <-. cbn. unfold input_disabled, send_disabled.
  rewrite Hl, Herr, Hin. repeat split.
Qed.

Lemma loading_page_witness :
  exists pg,
    steps None page_initial [Change (lit "hi"); Submit] = Some pg
    /\ isLoading (state pg) = true
    /\ input (state pg) = lit ""
    /\ error (state pg) = None.
Proof.
  eexists. split; [reflexivity |]. split; [reflexivity |].
  match goal with
  | |- input (state ?pg) = _ /\ _ =>
      pose proof (@loading_page None [Change (lit "hi"); Submit] pg eq_refl eq_refl)
        as (Hin & Herr & _)
  end.
  split; [exact Hin | exact Herr].
Defined.

(** X10. In every state the page reaches, a submit the form dispatches
    always goes through: the early return of [handleSubmit] is never
    taken, the trimmed input is appended as a user message, the input is
    emptied, and exactly the request for that text is in flight. *)
Theorem dispatched_submit_posts :
  forall env evs pg pg',
    steps env page_initial evs = Some pg ->
    step env pg Submit = Some pg' ->
    trim (input (state pg)) <> lit ""
    /\ messages (state pg')
       = messages (state pg)
           ++ [{| role := lit "user"; content := JStr (trim (input (state pg))) |}]
    /\ input (state pg') = lit ""
    /\ isLoading (state pg') = true
    /\ map fst (in_flight pg') =
         [{| url := API_URL env ++ lit "/chat";
             body := JObj [(lit "message", JStr (trim (input (state pg))));
                           (lit "model", JStr (lit "mistral"))] |}].
Proof.
  intros env evs pg pg' Hsteps Hstep.
  pose proof (steps_page_ok env evs page_initial_ok Hsteps) as Hok.
  destruct (@submit_step env pg pg' Hok Hstep) as (Hi & _ & k & _ & ->).
  split; [| repeat split].
  intros H. rewrite H in Hi. discriminate.
Qed.

Lemma dispatched_submit_posts_witness :
  exists pg pg',
    steps None page_initial [Change (lit " Show me jobs ")] = Some pg
    /\ step None pg Submit = Some pg'
    /\ messages (state pg') =
         [{| role := lit "user"; content := JStr (lit "Show me jobs") |}]
    /\ map fst (in_flight pg') =
         [{| url := lit "http://localhost:8000/api/chat";
             body := JObj [(lit "message", JStr (lit "Show me jobs"));
                           (lit "model", JStr (lit "mistral"))] |}].
Proof.
  eexists. eexists. split; [reflexivity |]. split; [reflexivity |].
  match goal with
  | |- messages (state ?pg') = _ /\ _ =>
      pose proof (@dispatched_submit_posts None [Change (lit " Show me jobs ")]
                    _ pg' eq_refl eq_refl) as (_ & Hm & _ & _ & Hreq)
  end.
  split; [exact Hm | exact Hreq].
Defined.

Lemma settle_enabled :
  forall env pg r,
    List.length (in_flight pg) = 1 ->
    isLoading (state pg) = true ->
    exists pg', step env pg (Settle 0 r) = Some pg'.
Proof.
  intros env pg r Hlen _. cbn [step].
  destruct (in_flight pg) as [| [req k] fl]; [discriminate |].
  cbn. now eexists.
Qed.

(** X11. In every state the page reaches, a response is taken only while
    [isLoading] is set and only for the one request in flight; whatever
    the promise settles with, nothing is in flight afterwards,
    [isLoading] is [false] and the input is still the empty string, and
    whenever the resulting state renders, the page shows no dots, the
    text input enabled and empty, and the Send button disabled until the
    user types. *)
Theorem response_reenables_form :
  forall env evs pg,
    steps env page_initial evs = Some pg ->
    (forall i r, step env pg (Settle i r) <> None ->
                 i = 0 /\ isLoading (state pg) = true)
    /\ (isLoading (state pg) = true ->
          forall r, exists pg',
            step env pg (Settle 0 r) = Some pg'
            /\ in_flight pg' = []
            /\ isLoading (state pg') = false
            /\ input (state pg') = lit ""
            /\ forall view, render (state pg') = Some view ->
                 loading_dots view = false
                 /\ input_is_disabled view = false
                 /\ input_value view = lit ""
                 /\ send_is_disabled view = true).
Proof.
  intros env evs pg Hsteps.
  pose proof (steps_page_ok env evs page_initial_ok Hsteps) as Hok.
  split.
  - intros i r Hstep.
    destruct (step env pg (Settle i r)) as [pg' |] eqn:E; [| congruence].
    destruct (@settle_step env pg i r pg' Hok E) as (Hi & Hl & _). now split.
  - intros Hl r.
    destruct Hok as (Hlen & Hres & Hload & Hrest).
    destruct (Hload Hl) as [Hin _].
    assert (Hsome : exists pg', step env pg (Settle 0 r) = Some pg')
      by (apply settle_enabled; [rewrite Hl in Hlen; exact Hlen | exact Hl]).
    destruct Hsome as [pg' Hstep]. exists pg'. split; [exact Hstep |].
    destruct (@settle_step env pg 0 r pg' (conj Hlen (conj Hres (conj Hload Hrest))) Hstep)
      as (_ & _ & Hfl & Hin' & Hl' & _).
    rewrite Hin in Hin'.
    split; [exact Hfl |]. split; [exact Hl' |]. split; [exact Hin' |].
    intros view Hview. unfold render in Hview.
    destruct (render_messages (messages (state pg'))); [| discriminate].
    injection Hview as <-. cbn. unfold input_disabled, send_disabled.
    rewrite Hin', Hl'. repeat split.
Qed.

Lemma response_reenables_form_witness :
  let ok := Fulfilled {| data := JObj [(lit "response", JStr (lit "hello"))] |} in
  exists pg,
    steps None page_initial [Change (lit "hi"); Submit] = Some pg
    /\ isLoading (state pg) = true
    /\ exists pg' view,
         step None pg (Settle 0 ok) = Some pg'
         /\ in_flight pg' = []
         /\ isLoading (state pg') = false
         /\ input (state pg') = lit ""
         /\ render (state pg') = Some view
         /\ input_is_disabled view = false
         /\ send_is_disabled view = true.
Proof.
  intros ok. eexists. split; [reflexivity |]. split; [reflexivity |].
  match goal with
  | |- exists pg' view, step _ ?pg _ = _ /\ _ =>
      destruct (proj2 (@response_reenables_form None [Change (lit "hi"); Submit]
                         pg eq_refl) eq_refl ok)
        as (pg' & Hstep & Hfl & Hl & Hin & Hview)
  end.
  assert (Hr : exists view, render (state pg') = Some view).
  { cbv in Hstep. injection Hstep as <-. eexists. reflexivity. }
  destruct Hr as [view Hr]. exists pg', view.
  destruct (Hview view Hr) as (_ & Hdis & _ & Hsend).
  repeat split; assumption.
Defined.

(** X12. "Clear Chat" does not cancel the request in flight. In every
    state the page reaches with a request in flight, the click empties
    the list and leaves [isLoading] set and the request waiting; whatever
    the promise then settles with, the list ends up holding one message,
    of role "assistant". *)
Theorem clear_while_loading :
  forall env evs pg r,
    steps env page_initial evs = Some pg ->
    isLoading (state pg) = true ->
    exists pg1 pg2 a,
      step env pg ClearChat = Some pg1
      /\ messages (state pg1) = []
      /\ isLoading (state pg1) = true
      /\ List.length (in_flight pg1) = 1
      /\ step env pg1 (Settle 0 r) = Some pg2
      /\ messages (state pg2) = [a]
      /\ role a = lit "assistant"
      /\ isLoading (state pg2) = false.
Proof.
  intros env evs pg r Hsteps Hl.
  pose proof (steps_page_ok env evs page_initial_ok Hsteps) as Hok.
  assert (Hclear : exists pg1, step env pg ClearChat = Some pg1
                               /\ messages (state pg1) = []
                               /\ isLoading (state pg1) = isLoading (state pg)
                               /\ in_flight pg1 = in_flight pg).
  { eexists. split; [reflexivity |]. repeat split. }
  destruct Hclear as (pg1 & Hstep1 & Hm1 & Hl1 & Hfl1).
  pose proof (@step_page_ok env pg ClearChat pg1 Hok Hstep1) as Hok1.
  rewrite Hl in Hl1.
  assert (Hlen1 : List.length (in_flight pg1) = 1).
  { destruct Hok1 as (Hlen1 & _). now rewrite Hl1 in Hlen1. }
  destruct (settle_enabled env pg1 r Hlen1 Hl1) as [pg2 Hstep2].
  destruct (@settle_step env pg1 0 r pg2 Hok1 Hstep2)
    as (_ & _ & _ & _ & Hl2 & Hcases).
  rewrite Hm1 in Hcases.
  destruct Hcases as [(v & Hm2 & _) | (Hm2 & _)].
  - exists pg1, pg2, (assistant_message v). repeat split; assumption.
  - exists pg1, pg2, (assistant_message (JStr trouble_text)).
    repeat split; assumption.
Qed.

Lemma clear_while_loading_witness :
  exists pg pg1 pg2 a,
    steps None page_initial [Change (lit "hi"); Submit] = Some pg
    /\ step None pg ClearChat = Some pg1
    /\ step None pg1 (Settle 0 (Rejected JNull)) = Some pg2
    /\ messages (state pg2) = [a]
    /\ role a = lit "assistant".
Proof.
  eexists.
  match goal with
  | |- exists pg1 pg2 a, steps _ _ ?evs = Some ?pg /\ _ =>
      destruct (@clear_while_loading None evs pg (Rejected JNull) eq_refl eq_refl)
        as (pg1 & pg2 & a & H1 & _ & _ & _ & H2 & Hm & Ha & _);
      exists pg1, pg2, a
  end.
  split; [reflexivity |]. repeat split; assumption.
Defined.

(** X13. In every state the page reaches, also after a clear while a
    request was in flight, the roles of the list alternate, from "user"
    or from "assistant", and the last message is a user message exactly
    while a request is in flight. *)
Theorem roles_always_alternate :
  forall env evs pg,
    steps env page_initial evs = Some pg ->
    (exists b, alternates_from b (messages (state pg)) = true)
    /\ (forall pre m, messages (state pg) = pre ++ [m] ->
          role m = if isLoading (state pg) then lit "user" else lit "assistant").
Proof.
  intros env evs pg Hsteps.
  destruct (steps_page_ok env evs page_initial_ok Hsteps)
    as (_ & _ & _ & _ & _ & b & Halt & Hnext).
  split; [now exists b |].
  intros pre m Hm. rewrite Hm in Halt, Hnext.
  rewrite alternates_from_snoc in Halt. apply andb_prop in Halt as [_ Hrole].
  rewrite next_is_user_snoc in Hnext. apply (f_equal negb) in Hnext.
  rewrite !negb_involutive in Hnext. rewrite Hnext in Hrole.
  now apply js_eqb_eq in Hrole.
Qed.

Lemma roles_always_alternate_witness :
  let ok := Fulfilled {| data := JObj [(lit "response", JStr (lit "35 jobs"))] |} in
  let evs := [Change (lit "Show me jobs"); Submit; ClearChat; Settle 0 ok;
              Change (lit "more"); Submit] in
  exists pg,
    steps None page_initial evs = Some pg
    /\ List.length (messages (state pg)) = 2
    /\ exists b, alternates_from b (messages (state pg)) = true.
Proof.
  intros ok evs. eexists. split; [reflexivity |]. split; [reflexivity |].
  exact (proj1 (@roles_always_alternate None evs _ eq_refl)).
Defined.

Lemma split_pieces :
  forall sep s,
    List.length (Js.split sep s) = S (count_occ N.eq_dec s sep)
    /\ Forall (fun piece => ~ In sep piece) (Js.split sep s).
Proof.
  intros sep s. induction s as [| c r [IHlen IHall]].
  - cbn. split; [reflexivity |]. constructor; [intros [] | constructor].
  - cbn [Js.split]. destruct (N.eqb_spec c sep) as [-> | Hc].
    + rewrite count_occ_cons_eq by reflexivity. cbn [List.length].
      split; [now rewrite IHlen |]. constructor; [intros [] | exact IHall].
    + rewrite count_occ_cons_neq by exact Hc.
      pose proof (split_nonempty sep r) as Hne.
      destruct (Js.split sep r) as [| piece pieces]; [congruence |].
      split; [exact IHlen |].
      inversion IHall as [| ? ? Hpiece Hpieces]; subst.
      constructor; [| exact Hpieces].
      intros [Heq | Hin]; [congruence | exact (Hpiece Hin)].
Qed.

(** X14. A message whose content is a string is rendered as one bubble,
    at the right for the role "user" and at the left for any other role,
    with one paragraph more than the text has line feeds; no paragraph
    holds a line feed, and the paragraphs joined by line feeds are the
    text. *)
Theorem rendered_paragraphs :
  forall msg text,
    content msg = JStr text ->
    exists bubble,
      render_message msg = Some bubble
      /\ (justify_end bubble = true <-> role msg = lit "user")
      /\ List.length (paragraphs bubble) = S (count_occ N.eq_dec text 10%N)
      /\ Forall (fun p => ~ In 10%N p) (paragraphs bubble)
      /\ Js.join 10 (paragraphs bubble) = text.
Proof.
  intros msg text Hc. unfold render_message. rewrite Hc.
  eexists. split; [reflexivity |]. cbn [justify_end paragraphs].
  destruct (split_pieces 10 text) as [Hlen Hall].
  split; [apply js_eqb_eq |]. split; [exact Hlen |]. split; [exact Hall |].
  apply join_split.
Qed.

Lemma rendered_paragraphs_witness :
  let msg := assistant_message (JStr [72; 105; 10; 10; 98; 121; 101]%N) in
  exists bubble,
    render_message msg = Some bubble
    /\ paragraphs bubble = [[72; 105]; []; [98; 121; 101]]%N
    /\ Js.join 10 (paragraphs bubble) = [72; 105; 10; 10; 98; 121; 101]%N.
Proof.
  intros msg.
  destruct (@rendered_paragraphs msg [72; 105; 10; 10; 98; 121; 101]%N eq_refl)
    as (bubble & Hr & _ & _ & _ & Hjoin).
  exists bubble. split; [exact Hr |]. split; [| exact Hjoin].
  cbv in Hr. injection Hr as <-. reflexivity.
Defined.

Lemma render_message_None :
  forall msg,
    render_message msg = None <-> (forall text, content msg <> JStr text).
Proof.
  intros msg. unfold render_message. destruct (content msg); split;
    try discriminate; try reflexivity.
  intros H. now elim (H s).
Qed.

Lemma render_messages_None :
  forall l,
    render_messages l = None <-> exists m, In m l /\ render_message m = None.
Proof.
  induction l as [| msg rest IH]; cbn [render_messages].
  - split; [discriminate | intros (m & [] & _)].
  - destruct (render_message msg) as [b |] eqn:Hb.
    + destruct (render_messages rest) as [bs |].
      * split; [discriminate |].
        intros (m & [<- | Hin] & Hm); [congruence |].
        assert (Hbad : Some bs = None) by (apply IH; now exists m).
        discriminate Hbad.
      * split; [| reflexivity]. intros _.
        destruct (proj1 IH eq_refl) as (m & Hin & Hm).
        exists m. split; [now right | exact Hm].
    + split; [| reflexivity]. intros _. exists msg. split; [now left | exact Hb].
Qed.

(** X15. In every state the page reaches, the render throws exactly when
    the list holds an assistant message whose content is not a string:
    no user message makes it throw. *)
Theorem render_throws_on_answers_only :
  forall env evs pg,
    steps env page_initial evs = Some pg ->
    (render (state pg) = None
     <-> exists m, In m (messages (state pg))
                   /\ role m = lit "assistant"
                   /\ forall text, content m <> JStr text).
Proof.
  intros env evs pg Hsteps.
  destruct (steps_page_ok env evs page_initial_ok Hsteps)
    as (_ & _ & _ & _ & Hwf & _).
  rewrite Forall_forall in Hwf.
  assert (Hrender : render (state pg) = None
                    <-> render_messages (messages (state pg)) = None).
  { unfold render. destruct (render_messages (messages (state pg)));
      split; congruence. }
  rewrite Hrender, render_messages_None. split.
  - intros (m & Hin & Hm). exists m. split; [exact Hin |].
    pose proof (proj1 (render_message_None m) Hm) as Hnot.
    split; [| exact Hnot].
    destruct (Hwf m Hin) as [Ha | (text & -> & _)]; [exact Ha |].
    now elim (Hnot text).
  - intros (m & Hin & _ & Hm). exists m. split; [exact Hin |].
    exact (proj2 (render_message_None m) Hm).
Qed.

Lemma render_throws_on_answers_only_witness :
  exists pg,
    steps None page_initial
      [Change (lit "hi"); Submit; Settle 0 (Fulfilled {| data := JObj [] |})]
      = Some pg
    /\ render (state pg) = None
    /\ exists m, In m (messages (state pg))
                 /\ role m = lit "assistant"
                 /\ forall text, content m <> JStr text.
Proof.
  eexists. split; [reflexivity |]. split; [reflexivity |].
  apply (@render_throws_on_answers_only None
           [Change (lit "hi"); Submit; Settle 0 (Fulfilled {| data := JObj [] |})]
           _ eq_refl).
  reflexivity.
Defined.

(** X16. When the request of a submit is fulfilled with a body whose
    [response] field reads as anything but a string (the field is
    missing, or the body is no object, or the field holds a number, an
    array, ...), [handleSubmit] still appends it as the content of an
    assistant message and sets no error, and the render of the resulting
    state throws. *)
Theorem answer_without_text_breaks_render :
  forall env s response v,
    trim (input s) <> lit "" ->
    get_response (data response) = inr v ->
    (forall text, v <> JStr text) ->
    exists s' tr,
      run_with (Fulfilled response) (handleSubmit env (input s)) s = (inr tt, s', tr)
      /\ messages s' =
           messages s
             ++ [{| role := lit "user"; content := JStr (trim (input s)) |};
                 {| role := lit "assistant"; content := v |}]
      /\ error s' = None
      /\ render s' = None.
Proof.
  intros env s response v H Hv Hnot. apply truthy_nonempty in H.
  destruct (handleSubmit_run env (input s) s H) as (k & Hrun & Hok & _).
  rewrite run_with_run, Hrun, run_with_run, (Hok _ _ _ Hv).
  eexists. eexists. split; [reflexivity |]. cbn [messages error].
  rewrite <- app_assoc. split; [reflexivity |]. split; [reflexivity |].
  unfold render. cbn [messages].
  assert (Hnone : render_messages
                    (messages s ++ [user_message (trim (input s))] ++ [assistant_message v])
                  = None).
  { apply render_messages_None. exists (assistant_message v). split.
    - apply in_or_app. right. apply in_or_app. right. now left.
    - exact (proj2 (render_message_None (assistant_message v)) Hnot). }
  now rewrite Hnone.
Qed.

Lemma answer_without_text_breaks_render_witness :
  let s := {| messages := []; input := lit "How many members?";
              isLoading := false; error := None |} in
  let response := {| data := JObj [(lit "answer", JStr (lit "4188"))] |} in
  exists s' tr,
    run_with (Fulfilled response) (handleSubmit None (input s)) s = (inr tt, s', tr)
    /\ messages s' =
         [{| role := lit "user"; content := JStr (lit "How many members?") |};
          {| role := lit "assistant"; content := JUndefined |}]
    /\ error s' = None
    /\ render s' = None.
Proof.
  intros s response.
  apply (@answer_without_text_breaks_render None s response JUndefined).
  - discriminate.
  - reflexivity.
  - discriminate.
Defined.
